(** * business-case.ipynb: the event simulator and the KPI pipeline

    A shallow embedding of the two code cells of the notebook that carry
    logic: the cell that simulates the event log ([data]) and the cell that
    aggregates it into daily KPIs ([kpi_data]).

    Modelling conventions.
    - NumPy's [float64] values are exact rationals extended with the three
      IEEE special values ([+inf], [-inf], [nan]); the arithmetic of the
      cells is exact, rounding to binary64 ([fl]) is modelled where a bound
      depends on it, which is the upper end of [np.random.uniform]
      ([uniform_max]); the sign of zero is not modelled (every zero behaves
      as [+0.0]).
    - The process-wide generator [np.random] is explicit state threaded
      through the cells; its operations are an interface ([Generator]) with
      the contracts NumPy documents for them ([GeneratorLaws]).
    - A raised Python exception is [None] in the state-and-error monad [M];
      the limits of memory and of the timestamp range are not modelled.
    - A [pandas.DataFrame] is a list of rows; the Event table has the fixed
      schema of the [day_data] constructor, the KPI table is built column by
      column and is modelled with named cells.
    - Of the other cells, the daily-events table ([daily_events]), the
      contingency table ([cr_line], [cr_table]) and the cumulative-revenue
      frame ([kpi_data_sorted]) are modelled; the plots and the two
      statistical tests are not. *)

From Stdlib Require Import String Ascii.
From Stdlib Require Import List ZArith QArith Qround Qabs Bool Lia Lqa.
From Stdlib Require Import Permutation.
From Stdlib Require Import Sorted.
From Stdlib Require OrderedTypeEx.
Import ListNotations.

Local Open Scope string_scope.
Local Open Scope Z_scope.

(** ** Rational helpers *)

Definition Qltb (x y : Q) : bool := negb (Qle_bool y x).

(** [Series.sum()] of a float column. *)
Definition Qsum (l : list Q) : Q := fold_right Qplus 0%Q l.

Definition Qmin2 (a b : Q) : Q := if Qle_bool a b then a else b.

Definition Qmax2 (a b : Q) : Q := if Qle_bool a b then b else a.

(** ** Rounding to binary64 *)

(** The exponent of a positive rational: the [k] with [2^k <= a < 2^(k+1)]. *)
Definition ilog2 (a : Q) : Z :=
  let k := Z.log2 (Qnum a) - Z.log2 (Zpos (Qden a)) in
  if Qltb a (2 ^ k)%Q then k - 1 else k.

(** The nearest integer, a tie going to the even one. *)
Definition round_half_even (q : Q) : Z :=
  let f := Qfloor q in
  match (q - inject_Z f ?= 1 # 2)%Q with
  | Lt => f
  | Gt => f + 1
  | Eq => if Z.even f then f else f + 1
  end.

(** The binary64 number nearest to [x] (53 significant bits, ties to even;
    the exponent range is not modelled). *)
Definition fl (x : Q) : Q :=
  if Qeq_bool x 0 then 0%Q
  else
    let e := ilog2 (Qabs x) - 52 in
    let m := round_half_even (Qabs x / 2 ^ e)%Q in
    let r := Qred (inject_Z m * 2 ^ e)%Q in
    if Qltb x 0 then (- r)%Q else r.

(** The largest value [np.random.uniform(low, high)] returns.  NumPy computes
    [low + (high - low) * u] in binary64, with [u] a multiple of [2^-53] in
    [0, 1); the three operations round, and the largest [u] is [1 - 2^-53].
    For floats [low < high] the rounded value lies between [low] and [high]
    and the two clamps change nothing; they keep the bound between [low] and
    [high] for every pair of rationals.  The bound can be [high] itself:
    it is [300] for [(200, 300)], and [200 - 2^-45] for [(20, 200)]. *)
Definition uniform_max (low high : Q) : Q :=
  Qmax2 low
    (Qmin2 high (fl (low + fl (fl (high - low) * (1 - (1 # 2 ^ 53)))))%Q).

(** ** float64 with the IEEE special values *)

Inductive float64 : Type :=
| Fin (q : Q)
| PInf
| NInf
| NaN.

Definition of_count (n : nat) : float64 := Fin (inject_Z (Z.of_nat n)).

(** True division [x / y] of two floats, elementwise as NumPy does it with
    warnings ignored: a zero divisor gives a signed infinity, [0/0] gives
    [nan]; nothing raises. *)
Definition fdiv (x y : float64) : float64 :=
  match x, y with
  | NaN, _ | _, NaN => NaN
  | Fin a, Fin b =>
      if Qeq_bool b 0 then
        (if Qeq_bool a 0 then NaN else if Qltb a 0 then NInf else PInf)
      else Fin (a / b)
  | Fin _, PInf | Fin _, NInf => Fin 0
  | PInf, Fin b => if Qltb b 0 then NInf else PInf
  | NInf, Fin b => if Qltb b 0 then PInf else NInf
  | PInf, PInf | PInf, NInf | NInf, PInf | NInf, NInf => NaN
  end.

(** Product [x * y]. *)
Definition fmul (x y : float64) : float64 :=
  match x, y with
  | NaN, _ | _, NaN => NaN
  | Fin a, Fin b => Fin (a * b)
  | Fin a, PInf | PInf, Fin a =>
      if Qeq_bool a 0 then NaN else if Qltb a 0 then NInf else PInf
  | Fin a, NInf | NInf, Fin a =>
      if Qeq_bool a 0 then NaN else if Qltb a 0 then PInf else NInf
  | PInf, PInf | NInf, NInf => PInf
  | PInf, NInf | NInf, PInf => NInf
  end.

(** Difference [x - y]. *)
Definition fsub (x y : float64) : float64 :=
  match x, y with
  | NaN, _ | _, NaN => NaN
  | Fin a, Fin b => Fin (a - b)
  | PInf, PInf | NInf, NInf => NaN
  | PInf, _ | _, NInf => PInf
  | NInf, _ | _, PInf => NInf
  end.

(** Sum [x + y]. *)
Definition fadd (x y : float64) : float64 :=
  match x, y with
  | NaN, _ | _, NaN => NaN
  | Fin a, Fin b => Fin (a + b)
  | PInf, NInf | NInf, PInf => NaN
  | PInf, _ | _, PInf => PInf
  | NInf, _ | _, NInf => NInf
  end.

(** [x] is the finite number [q]. *)
Definition is_value (x : float64) (q : Q) : Prop :=
  match x with
  | Fin a => (a == q)%Q
  | _ => False
  end.

(** [x] is a finite number in the closed interval [lo, hi]. *)
Definition in_range (x : float64) (lo hi : Q) : Prop :=
  match x with
  | Fin a => (lo <= a /\ a <= hi)%Q
  | _ => False
  end.

(** [x] is a finite number that is at least [lo]. *)
Definition at_least (x : float64) (lo : Q) : Prop :=
  match x with
  | Fin a => (lo <= a)%Q
  | _ => False
  end.

(** ** The random generator *)

(** The operations of [np.random] the notebook calls.  Each takes the
    generator state and returns the drawn value with the next state. *)
Class Generator (G : Type) : Type := {
  (** [np.random.seed(s)]: the state a seed determines. *)
  gen_seed : Z -> G;
  (** one integer of [np.random.randint(low, high, size=1)]. *)
  gen_randint : Z -> Z -> G -> Z * G;
  (** [np.random.choice(a, size=n, replace=True)]. *)
  gen_choice : list Z -> nat -> G -> list Z * G;
  (** [np.random.rand(n)]. *)
  gen_rand : nat -> G -> list Q * G;
  (** [np.random.uniform(low, high, size=n)]. *)
  gen_uniform : Q -> Q -> nat -> G -> list Q * G
}.

(** The documented contracts: sizes are honoured, [rand] is in [0, 1),
    [randint] is in the half-open interval [low, high), [uniform] is at
    least [low] and at most [uniform_max low high] (the documented interval
    [low, high) is that of the exact value: the float result can be [high]),
    [choice] returns members of the pool. *)
Class GeneratorLaws (G : Type) `{Generator G} : Prop := {
  randint_range : forall low high st,
    low < high ->
    low <= fst (gen_randint low high st) < high;
  choice_length : forall pool n st,
    length (fst (gen_choice pool n st)) = n;
  choice_member : forall pool n st,
    pool <> [] ->
    Forall (fun x => In x pool) (fst (gen_choice pool n st));
  rand_length : forall n st,
    length (fst (gen_rand n st)) = n;
  rand_range : forall n st,
    Forall (fun x => 0 <= x /\ x < 1)%Q (fst (gen_rand n st));
  uniform_length : forall low high n st,
    length (fst (gen_uniform low high n st)) = n;
  uniform_range : forall low high n st,
    (low < high)%Q ->
    Forall (fun x => low <= x /\ x <= uniform_max low high)%Q
           (fst (gen_uniform low high n st))
}.

(** ** State and error monad over the generator *)

Definition M (G A : Type) : Type := G -> option (A * G).

Definition ret {G A} (a : A) : M G A := fun st => Some (a, st).

Definition bind {G A B} (m : M G A) (k : A -> M G B) : M G B :=
  fun st =>
    match m st with
    | Some (a, st') => k a st'
    | None => None
    end.

(** A raised exception. *)
Definition raise {G A} : M G A := fun _ => None.

(** A draw that cannot fail. *)
Definition draw {G A} (f : G -> A * G) : M G A := fun st => Some (f st).

(** A pure computation that may raise. *)
Definition lift_option {G A} (o : option A) : M G A :=
  fun st =>
    match o with
    | Some a => Some (a, st)
    | None => None
    end.

(** A [for] loop whose body appends one result per element. *)
Fixpoint for_each {G A B} (xs : list A) (body : A -> M G B) : M G (list B) :=
  match xs with
  | [] => ret []
  | x :: xs' =>
      bind (body x) (fun y =>
      bind (for_each xs' body) (fun ys =>
      ret (y :: ys)))
  end.

Notation "x <- m ;; k" := (bind m (fun x => k))
  (at level 61, m at next level, right associativity).

(** ** The Event table *)

(** A day of the simulated month, counted from 2024-01-01. *)
Definition timestamp : Type := Z.

(** One row of [day_data] (and of [data]). *)
Record event : Type := Build_event {
  user_id : Z;
  date : timestamp;
  event_type : string;
  group : string;
  revenue : Q
}.

(** ** Simulation parameters *)

(** The constants of the parameter cell.  The bounds of [events_per_day]
    and the list of groups the loop ranges over are literals in the
    notebook; they are fields here so that other scenarios can be run. *)
Record params : Type := {
  num_days : nat;
  num_users : nat;
  events_low : Z;
  events_high : Z;
  revenue_global : bool;
  r_revenue_global : Q * Q;
  p_click_control : Q;
  p_purchase_control : Q;
  r_revenue_control : Q * Q;
  p_click_treatment : Q;
  p_purchase_treatment : Q;
  r_revenue_treatment : Q * Q;
  groups : list string
}.

(** The values the notebook sets. *)
Definition reference : params := {|
  num_days := 30;
  num_users := 3000;
  events_low := 150;
  events_high := 200;
  revenue_global := true;
  r_revenue_global := (20, 200)%Q;
  p_click_control := (15 # 100)%Q;
  p_purchase_control := (5 # 100)%Q;
  r_revenue_control := (200, 300)%Q;
  p_click_treatment := (25 # 100)%Q;
  p_purchase_treatment := (10 # 100)%Q;
  r_revenue_treatment := (20, 100)%Q;
  groups := ["control"; "treatment"]
|}.

(** [pd.date_range(start='2024-01-01', periods=num_days)]. *)
Definition dates (p : params) : list timestamp :=
  map Z.of_nat (seq 0 (num_days p)).

(** [np.arange(1000, 1000 + num_users)]. *)
Definition users (p : params) : list Z :=
  map (fun i => 1000 + Z.of_nat i) (seq 0 (num_users p)).

(** ** Array operations of the simulator *)

(** A value stored in an array of dtype [U10] keeps its first ten
    characters. *)
Definition U10 (s : string) : string := substring 0 10 s.

(** [rand < p], elementwise. *)
Definition below (draws : list Q) (p : Q) : list bool :=
  map (fun u => Qltb u p) draws.

(** [a & b], elementwise. *)
Definition mask_and (a b : list bool) : list bool :=
  map (fun ab : bool * bool => andb (fst ab) (snd ab)) (combine a b).

(** [mask.sum()]. *)
Definition mask_sum (mask : list bool) : nat :=
  length (filter (fun b : bool => b) mask).

(** [arr[mask] = v] for a scalar [v]. *)
Definition mask_set {A} (arr : list A) (mask : list bool) (v : A) : list A :=
  map (fun am : A * bool => if snd am then v else fst am) (combine arr mask).

(** [arr[mask] = vals] for an array [vals]: the values go, in order, to the
    positions where the mask is set.  NumPy requires [vals] to have
    [mask.sum()] entries; the simulator passes exactly that many. *)
Fixpoint mask_put {A} (arr : list A) (mask : list bool) (vals : list A)
  : list A :=
  match arr, mask with
  | a :: arr', true :: mask' =>
      match vals with
      | v :: vals' => v :: mask_put arr' mask' vals'
      | [] => a :: mask_put arr' mask' []
      end
  | a :: arr', false :: mask' => a :: mask_put arr' mask' vals
  | _, _ => arr
  end.

(** [pd.DataFrame({'user_id': user_ids, 'date': date, 'event_type':
    event_types, 'group': group, 'revenue': revenues})]: the scalars are
    repeated along the arrays. *)
Definition day_frame (user_ids : list Z) (d : timestamp)
  (event_types : list string) (g : string) (revenues : list Q)
  : list event :=
  map (fun r : Z * string * Q =>
         Build_event (fst (fst r)) d (snd (fst r)) g (snd r))
      (combine (combine user_ids event_types) revenues).

(** The labels of a day after the two relabelling steps. *)
Definition label_events (n : nat) (click_mask purchase_mask : list bool)
  : list string :=
  let event_types := repeat (U10 "view") n in
  let event_types := mask_set event_types click_mask (U10 "click") in
  mask_set event_types purchase_mask (U10 "purchase").

(** The three per-group settings chosen at the top of the loop body, with
    the override by [revenue_global]. *)
Definition p_click (p : params) (g : string) : Q :=
  if String.eqb g "control" then p_click_control p else p_click_treatment p.

Definition p_purchase (p : params) (g : string) : Q :=
  if String.eqb g "control" then p_purchase_control p
  else p_purchase_treatment p.

Definition r_revenue (p : params) (g : string) : Q * Q :=
  let r := if String.eqb g "control" then r_revenue_control p
           else r_revenue_treatment p in
  if revenue_global p then r_revenue_global p else r.

(** ** The simulator *)

Section Simulator.

Context {G : Type} `{Generator G}.

(** [np.random.seed(s)]: the seed must fit 32 bits. *)
Definition np_seed (s : Z) : M G unit :=
  fun _ =>
    if (0 <=? s) && (s <? 2 ^ 32) then Some (tt, gen_seed s) else None.

(** The bounds [np.random.randint] accepts for its default dtype, [int64]:
    [low] not below the least value, [high] not above the greatest plus one. *)
Definition int64_bounds (low high : Z) : bool :=
  (- 2 ^ 63 <=? low) && (high <=? 2 ^ 63).

(** [np.random.randint(low, high, size=1)[0]]: raises when a bound is out of
    [int64] and when the interval is empty. *)
Definition np_randint (low high : Z) : M G Z :=
  if int64_bounds low high && (low <? high)
  then draw (gen_randint low high) else raise.

(** [np.random.choice(a, size, replace=True)]: raises on a negative size
    and on an empty pool unless no sample is taken. *)
Definition np_choice (a : list Z) (size : Z) : M G (list Z) :=
  if size <? 0 then raise
  else if (length a =? 0)%nat && negb (size =? 0) then raise
  else draw (gen_choice a (Z.to_nat size)).

(** [np.random.rand(size)]: raises on a negative size. *)
Definition np_rand (size : Z) : M G (list Q) :=
  if size <? 0 then raise else draw (gen_rand (Z.to_nat size)).

(** [np.random.uniform(low, high, size)]. *)
Definition np_uniform (low high : Q) (size : nat) : M G (list Q) :=
  draw (gen_uniform low high size).

(** [events_per_day()]. *)
Definition events_per_day (p : params) : M G Z :=
  np_randint (events_low p) (events_high p).

(** The body of the two nested loops: the frame [day_data] of one date and
    one group. *)
Definition simulate_day (p : params) (d : timestamp) (g : string)
  : M G (list event) :=
  num_views <- events_per_day p ;;
  user_ids <- np_choice (users p) num_views ;;
  click_draws <- np_rand num_views ;;
  let click_mask := below click_draws (p_click p g) in
  purchase_draws <- np_rand num_views ;;
  let purchase_mask :=
    mask_and click_mask (below purchase_draws (p_purchase p g)) in
  let event_types :=
    label_events (Z.to_nat num_views) click_mask purchase_mask in
  let revenues := repeat 0%Q (Z.to_nat num_views) in
  let num_purchases := mask_sum purchase_mask in
  drawn <- np_uniform (fst (r_revenue p g)) (snd (r_revenue p g))
             num_purchases ;;
  let revenues := mask_put revenues purchase_mask drawn in
  ret (day_frame user_ids d event_types g revenues).

(** [pd.concat(data_list, ignore_index=True)]: raises on an empty list. *)
Definition pd_concat (data_list : list (list event)) : M G (list event) :=
  match data_list with
  | [] => raise
  | _ => ret (concat data_list)
  end.

(** The simulation cell: one [day_data] per date and group, dates in the
    outer loop, then the concatenation. *)
Definition simulate (p : params) : M G (list event) :=
  per_date <- for_each (dates p) (fun d =>
                for_each (groups p) (fun g => simulate_day p d g)) ;;
  pd_concat (concat per_date).

End Simulator.

(** ** The KPI table *)

(** A cell of the KPI frame: a group label, a date, or a float.  The four
    aggregates come out of one [pd.Series] that holds a float ([revenue]),
    so all of them are floats. *)
Inductive cell : Type :=
| CStr (s : string)
| CDate (d : timestamp)
| CNum (x : float64).

(** A row as a mapping from column labels to cells, in column order. *)
Definition row : Type := list (string * cell).

Definition frame : Type := list row.

Fixpoint lookup (name : string) (r : row) : option cell :=
  match r with
  | [] => None
  | (n, c) :: r' => if String.eqb n name then Some c else lookup name r'
  end.

(** The float in column [name]; [None] when the column is missing or does
    not hold numbers. *)
Definition get_num (name : string) (r : row) : option float64 :=
  match lookup name r with
  | Some (CNum x) => Some x
  | _ => None
  end.

(** Assigning a cell: an existing column is overwritten in place, a new one
    is appended. *)
Fixpoint row_set (name : string) (c : cell) (r : row) : row :=
  match r with
  | [] => [(name, c)]
  | (n, c0) :: r' =>
      if String.eqb n name then (n, c) :: r' else (n, c0) :: row_set name c r'
  end.

(** [frame[name]] as a float series. *)
Fixpoint column (name : string) (f : frame) : option (list float64) :=
  match f with
  | [] => Some []
  | r :: f' =>
      match get_num name r, column name f' with
      | Some x, Some xs => Some (x :: xs)
      | _, _ => None
      end
  end.

(** [a / b] on two series of one frame. *)
Definition series_div (a b : list float64) : list float64 :=
  map (fun xy : float64 * float64 => fdiv (fst xy) (snd xy)) (combine a b).

(** [a * k] for a scalar [k]. *)
Definition series_scale (a : list float64) (k : float64) : list float64 :=
  map (fun x => fmul x k) a.

(** [frame[name] = values]. *)
Definition set_column (name : string) (values : list float64) (f : frame)
  : frame :=
  map (fun rv : row * float64 => row_set name (CNum (snd rv)) (fst rv))
      (combine f values).

(** A function applied to every cell of a frame. *)
Definition map_cells (g : cell -> cell) (f : frame) : frame :=
  map (map (fun nc : string * cell => (fst nc, g (snd nc)))) f.

(** [replace([np.inf, -np.inf], np.nan)] on one cell. *)
Definition replace_inf (c : cell) : cell :=
  match c with
  | CNum PInf | CNum NInf => CNum NaN
  | _ => c
  end.

(** [fillna(0)] on one cell. *)
Definition fillna_0 (c : cell) : cell :=
  match c with
  | CNum NaN => CNum (Fin 0)
  | _ => c
  end.

(** *** groupby *)

Definition key : Type := (string * timestamp)%type.

Definition key_of (e : event) : key := (group e, date e).

Definition key_eqb (a b : key) : bool :=
  String.eqb (fst a) (fst b) && (snd a =? snd b).

(** Group keys are ordered by group, then by date. *)
Definition key_leb (a b : key) : bool :=
  match String.compare (fst a) (fst b) with
  | Lt => true
  | Eq => snd a <=? snd b
  | Gt => false
  end.

Fixpoint unique (l : list key) : list key :=
  match l with
  | [] => []
  | k :: l' => if existsb (key_eqb k) l' then unique l' else k :: unique l'
  end.

Fixpoint insert_key (k : key) (l : list key) : list key :=
  match l with
  | [] => [k]
  | k' :: l' => if key_leb k k' then k :: l else k' :: insert_key k l'
  end.

Definition sort_keys (l : list key) : list key :=
  fold_right insert_key [] l.

(** The distinct (group, date) pairs of the table, sorted. *)
Definition group_keys (data : list event) : list key :=
  sort_keys (unique (map key_of data)).

(** The rows of one group, in table order. *)
Definition rows_of (k : key) (data : list event) : list event :=
  filter (fun e => key_eqb (key_of e) k) data.

(** [data.groupby(['group', 'date'])]: every key with its sub-frame. *)
Definition groupby (data : list event) : list (key * list event) :=
  map (fun k => (k, rows_of k data)) (group_keys data).

(** [np.sum(x['event_type'] == label)]. *)
Definition count_type (label : string) (x : list event) : nat :=
  length (filter (fun e => String.eqb (event_type e) label) x).

(** The [pd.Series] the lambda builds for one group. *)
Definition kpi_series (x : list event) : row :=
  [ ("views", CNum (of_count (count_type "view" x)));
    ("clicks", CNum (of_count (count_type "click" x)));
    ("purchases", CNum (of_count (count_type "purchase" x)));
    ("revenue", CNum (Fin (Qsum (map revenue x)))) ].

(** [grouped_data.apply(...).reset_index()]: the two key columns, then the
    series.  With no group at all pandas returns an empty frame that has
    the columns of the input instead; the first KPI column access then
    raises [KeyError], which is the [None] here. *)
Definition apply_reset_index (gs : list (key * list event)) : option frame :=
  match gs with
  | [] => None
  | _ =>
      Some (map (fun kx : key * list event =>
                   ("group", CStr (fst (fst kx)))
                   :: ("date", CDate (snd (fst kx)))
                   :: kpi_series (snd kx)) gs)
  end.

Definition obind {A B} (o : option A) (k : A -> option B) : option B :=
  match o with
  | Some a => k a
  | None => None
  end.

Notation "x <~ o ;; k" := (obind o (fun x => k))
  (at level 61, o at next level, right associativity).

(** The three ratio columns, before the division by zero is handled. *)
Definition add_ratios (kpi : frame) : option frame :=
  purchases <~ column "purchases" kpi ;;
  views <~ column "views" kpi ;;
  let kpi :=
    set_column "CVR" (series_scale (series_div purchases views) (Fin 100))
      kpi in
  revenue <~ column "revenue" kpi ;;
  purchases <~ column "purchases" kpi ;;
  let kpi := set_column "AOV" (series_div revenue purchases) kpi in
  clicks <~ column "clicks" kpi ;;
  views <~ column "views" kpi ;;
  let kpi :=
    set_column "CTR" (series_scale (series_div clicks views) (Fin 100))
      kpi in
  Some kpi.

(** The two in-place clean-up calls. *)
Definition handle_div_by_zero (kpi : frame) : frame :=
  map_cells fillna_0 (map_cells replace_inf kpi).

(** The KPI cell. *)
Definition kpi_data (data : list event) : option frame :=
  kpi <~ apply_reset_index (groupby data) ;;
  kpi <~ add_ratios kpi ;;
  Some (handle_div_by_zero kpi).

(** The column labels of the KPI table. *)
Definition kpi_columns : list string :=
  ["group"; "date"; "views"; "clicks"; "purchases"; "revenue";
   "CVR"; "AOV"; "CTR"].

(** The (group, date) pair a KPI row is about. *)
Definition row_key (r : row) : option key :=
  match lookup "group" r, lookup "date" r with
  | Some (CStr g), Some (CDate d) => Some (g, d)
  | _, _ => None
  end.

(** *** The contingency table *)

(** [kpi_data[kpi_data['group'] == g]]. *)
Definition group_data (g : string) (kpi : frame) : frame :=
  filter (fun r => match lookup "group" r with
                   | Some (CStr s) => String.eqb s g
                   | _ => false
                   end) kpi.

(** [frame[name].sum()]. *)
Definition column_sum (name : string) (f : frame) : option float64 :=
  xs <~ column name f ;;
  Some (fold_right fadd (Fin 0) xs).

(** One line of [cr_table]: the purchases of a group and its
    non-purchases, [views.sum() - purchases.sum()]. *)
Definition cr_line (g : string) (kpi : frame) : option (float64 * float64) :=
  let g_data := group_data g kpi in
  purchases <~ column_sum "purchases" g_data ;;
  views <~ column_sum "views" g_data ;;
  Some (purchases, fsub views purchases).

(** ** The notebook *)

(** The cells in order: seed the generator, simulate, aggregate.  The
    result is the Event table and the KPI table. *)
Definition run_notebook {G} `{Generator G} (seed : Z) (p : params)
  : M G (list event * frame) :=
  _ <- np_seed seed ;;
  data <- simulate p ;;
  kpi <- lift_option (kpi_data data) ;;
  ret (data, kpi).

(** ** A scripted generator *)

(** A generator for running the cells on chosen draws: it plays back a
    tape of unit samples and continues with a linear congruential sequence
    when the tape is used up.  Every operation maps unit samples into its
    range; a sample of [uniform] is capped at [uniform_max]. *)
Record scripted : Type := {
  tape : list Q;
  lcg : Z
}.

Definition lcg_next (s : Z) : Z := (1103515245 * s + 12345) mod 2147483648.

(** A tape entry outside [0, 1) is played as 0. *)
Definition clamp (u : Q) : Q :=
  if Qle_bool 0 u && Qltb u 1 then u else 0%Q.

Definition next_unit (st : scripted) : Q * scripted :=
  match tape st with
  | u :: t => (clamp u, {| tape := t; lcg := lcg st |})
  | [] =>
      let s := lcg_next (lcg st) in
      ((s # 2147483648)%Q, {| tape := []; lcg := s |})
  end.

Fixpoint units (n : nat) (st : scripted) : list Q * scripted :=
  match n with
  | O => ([], st)
  | S n' =>
      let (u, st1) := next_unit st in
      let (us, st2) := units n' st1 in
      (u :: us, st2)
  end.

(** The integer part of [u * k]. *)
Definition scale_index (u : Q) (k : Z) : Z := Qfloor (u * inject_Z k).

#[export] Instance scripted_generator : Generator scripted := {
  gen_seed s := {| tape := []; lcg := s |};
  gen_randint low high st :=
    let (u, st') := next_unit st in
    (low + scale_index u (high - low), st');
  gen_choice pool n st :=
    let (us, st') := units n st in
    (map (fun u => nth (Z.to_nat (scale_index u (Z.of_nat (length pool))))
                       pool 0) us, st');
  gen_rand n st := units n st;
  gen_uniform low high n st :=
    let (us, st') := units n st in
    (map (fun u => Qmin2 (low + u * (high - low)) (uniform_max low high))%Q
         us, st')
}.

(** A generator state that plays the given tape. *)
Definition play (t : list Q) : scripted := {| tape := t; lcg := 0 |}.

(** ** Vocabulary of the statements *)

(** Everything one run of the loop body draws. *)
Record day_draws : Type := {
  d_num_views : Z;
  d_user_ids : list Z;
  d_click : list Q;
  d_purchase : list Q;
  d_revenue : list Q
}.

Definition click_mask_of (p : params) (g : string) (t : day_draws)
  : list bool :=
  below (d_click t) (p_click p g).

Definition purchase_mask_of (p : params) (g : string) (t : day_draws)
  : list bool :=
  mask_and (click_mask_of p g t) (below (d_purchase t) (p_purchase p g)).

(** The frame the loop body builds from its draws. *)
Definition build_day (p : params) (d : timestamp) (g : string)
  (t : day_draws) : list event :=
  let n := Z.to_nat (d_num_views t) in
  day_frame (d_user_ids t) d
    (label_events n (click_mask_of p g t) (purchase_mask_of p g t)) g
    (mask_put (repeat 0%Q n) (purchase_mask_of p g t) (d_revenue t)).

(** The draws [t] are the ones the generator hands out, in the order of
    the loop body, from state [st]; [st'] is the state after them. *)
Definition draws_from {G} `{Generator G} (p : params) (g : string)
  (st : G) (t : day_draws) (st' : G) : Prop :=
  exists st1 st2 st3 st4,
    gen_randint (events_low p) (events_high p) st = (d_num_views t, st1) /\
    gen_choice (users p) (Z.to_nat (d_num_views t)) st1
      = (d_user_ids t, st2) /\
    gen_rand (Z.to_nat (d_num_views t)) st2 = (d_click t, st3) /\
    gen_rand (Z.to_nat (d_num_views t)) st3 = (d_purchase t, st4) /\
    gen_uniform (fst (r_revenue p g)) (snd (r_revenue p g))
      (mask_sum (purchase_mask_of p g t)) st4 = (d_revenue t, st').

(** The label the two relabelling steps leave on a row whose click draw is
    [u] and whose purchase draw is [v]. *)
Definition label_of (pc pp u v : Q) : string :=
  hd "" (label_events 1 (below [u] pc)
           (mask_and (below [u] pc) (below [v] pp))).

(** How a row [e] of a day relates to the draws [x] made for it (its user
    id, click draw and purchase draw): [P] holds of the revenue of a
    purchase, every other row has revenue 0. *)
Definition row_of_draws (P : Q -> Prop) (pc pp : Q) (d : timestamp)
  (g : string) (x : Z * (Q * Q)) (e : event) : Prop :=
  user_id e = fst x /\ date e = d /\ group e = g /\
  event_type e = label_of pc pp (fst (snd x)) (snd (snd x)) /\
  (if Qltb (fst (snd x)) pc && Qltb (snd (snd x)) pp
   then P (revenue e) else revenue e = 0%Q).

(** The unit samples [0/N, 1/N, ..., (N-1)/N]. *)
Definition unit_grid (N : positive) : list Q :=
  map (fun i => Z.of_nat i # N)%Q (seq 0 (Pos.to_nat N)).

(** Among all pairs of a click draw and a purchase draw on the grid, the
    number of pairs that leave the row labelled [purchase]. *)
Definition purchase_pairs (N : positive) (pc pp : Q) : nat :=
  length (filter (fun uv => String.eqb (label_of pc pp (fst uv) (snd uv))
                              "purchase")
            (list_prod (unit_grid N) (unit_grid N))).

(** The configurations on which no call of the simulator raises: at least
    one date and one group, a non-empty range of non-negative event
    counts that [randint] accepts, a non-empty user pool. *)
Definition valid_params (p : params) : bool :=
  (1 <=? num_days p)%nat && negb (length (groups p) =? 0)%nat
  && (0 <=? events_low p) && (events_low p <? events_high p)
  && (1 <=? num_users p)%nat && (events_high p <=? 2 ^ 63).


(** Every group draws its revenue from a range of positive numbers. *)
Definition positive_revenue (p : params) : bool :=
  forallb (fun g => Qltb 0 (fst (r_revenue p g))
                    && Qltb (fst (r_revenue p g)) (snd (r_revenue p g)))
    (groups p).

(** The (date, group) pairs in loop order. *)
Definition loop_pairs (p : params) : list (timestamp * string) :=
  flat_map (fun d => map (pair d) (groups p)) (dates p).

(** What the two clean-up calls leave of a float. *)
Definition clean (x : float64) : float64 :=
  match x with
  | Fin q => Fin q
  | _ => Fin 0
  end.

(** The KPI row of the group with key [k] and rows [x] in closed form:
    what [kpi_data] computes for the group, see [kpi_data_rows]. *)
Definition kpi_row_of (k : key) (x : list event) : row :=
  let views := of_count (count_type "view" x) in
  let clicks := of_count (count_type "click" x) in
  let purchases := of_count (count_type "purchase" x) in
  let revenue := Fin (Qsum (map revenue x)) in
  [ ("group", CStr (fst k));
    ("date", CDate (snd k));
    ("views", CNum views);
    ("clicks", CNum clicks);
    ("purchases", CNum purchases);
    ("revenue", CNum revenue);
    ("CVR", CNum (clean (fmul (fdiv purchases views) (Fin 100))));
    ("AOV", CNum (clean (fdiv revenue purchases)));
    ("CTR", CNum (clean (fmul (fdiv clicks views) (Fin 100)))) ].

(** The configuration [p] with other per-group revenue ranges. *)
Definition with_group_ranges (p : params) (rc rt : Q * Q) : params := {|
  num_days := num_days p;
  num_users := num_users p;
  events_low := events_low p;
  events_high := events_high p;
  revenue_global := revenue_global p;
  r_revenue_global := r_revenue_global p;
  p_click_control := p_click_control p;
  p_purchase_control := p_purchase_control p;
  r_revenue_control := rc;
  p_click_treatment := p_click_treatment p;
  p_purchase_treatment := p_purchase_treatment p;
  r_revenue_treatment := rt;
  groups := groups p
|}.


(** What the loop body guarantees of a row [e] it emits: one of the three
    labels, a revenue within the range of its group when it is a purchase
    (and the range is not empty), from its lower bound up to the largest
    value [np.random.uniform] returns, revenue 0 otherwise. *)
Definition row_invariant (p : params) (e : event) : Prop :=
  (event_type e = "view" \/ event_type e = "click"
   \/ event_type e = "purchase") /\
  (event_type e = "purchase" ->
   (fst (r_revenue p (group e)) < snd (r_revenue p (group e)))%Q ->
   (fst (r_revenue p (group e)) <= revenue e
    /\ revenue e <= uniform_max (fst (r_revenue p (group e)))
                                (snd (r_revenue p (group e))))%Q) /\
  (event_type e <> "purchase" -> revenue e = 0%Q).

(** A one-day, one-group run: the reference configuration cut down to the
    group [control] on a single day with exactly [n] events, ten users and
    the given click and purchase probabilities. *)
Definition scenario (n : Z) (pc pp : Q) : params := {|
  num_days := 1;
  num_users := 10;
  events_low := n;
  events_high := n + 1;
  revenue_global := true;
  r_revenue_global := (20, 200)%Q;
  p_click_control := pc;
  p_purchase_control := pp;
  r_revenue_control := (200, 300)%Q;
  p_click_treatment := (25 # 100)%Q;
  p_purchase_treatment := (10 # 100)%Q;
  r_revenue_treatment := (20, 100)%Q;
  groups := ["control"]
|}.

(** A tape for a day of five events: the count draw, five user draws, the
    five click draws, the five purchase draws, then revenue draws. *)
Definition tape_of (clicks purchases revenues : list Q) : list Q :=
  (0 :: repeat 0 5 ++ clicks ++ purchases ++ revenues)%Q.

(** ** The cells after the KPI cell *)

(** [cr_table]: one line per group, labelled [Control] and [Treatment],
    with the columns [Purchases] and [Non-Purchases]. *)
Definition cr_table (kpi : frame)
  : option (list (string * (float64 * float64))) :=
  control <~ cr_line "control" kpi ;;
  treatment <~ cr_line "treatment" kpi ;;
  Some [("Control", control); ("Treatment", treatment)].

(** The string in column [name]. *)
Definition get_str (name : string) (r : row) : option string :=
  match lookup name r with
  | Some (CStr s) => Some s
  | _ => None
  end.

(** [frame[name]] as a series of strings. *)
Fixpoint str_column (name : string) (f : frame) : option (list string) :=
  match f with
  | [] => Some []
  | r :: f' =>
      match get_str name r, str_column name f' with
      | Some x, Some xs => Some (x :: xs)
      | _, _ => None
      end
  end.

(** The (group, date) key of every row. *)
Fixpoint row_keys (f : frame) : option (list key) :=
  match f with
  | [] => Some []
  | r :: f' =>
      match row_key r, row_keys f' with
      | Some k, Some ks => Some (k :: ks)
      | _, _ => None
      end
  end.

Fixpoint insert_row (kr : key * row) (l : list (key * row))
  : list (key * row) :=
  match l with
  | [] => [kr]
  | kr' :: l' =>
      if key_leb (fst kr) (fst kr') then kr :: l else kr' :: insert_row kr l'
  end.

(** [frame.sort_values(by=['group', 'date'])]: a stable sort of the rows
    on their key. *)
Definition sort_values (f : frame) : option frame :=
  keys <~ row_keys f ;;
  Some (map snd (fold_right insert_row [] (combine keys f))).

(** The running total of a group, 0 before its first row. *)
Fixpoint acc_get (g : string) (acc : list (string * float64)) : float64 :=
  match acc with
  | [] => Fin 0
  | (g', s) :: acc' => if String.eqb g' g then s else acc_get g acc'
  end.

(** [groupby(labels).cumsum()] of a series: every position gets the total
    of its group up to and including it; a [nan] stays [nan] and is left
    out of the total. *)
Fixpoint group_cumsum (acc : list (string * float64)) (labels : list string)
  (values : list float64) : list float64 :=
  match labels, values with
  | g :: labels', x :: values' =>
      match x with
      | NaN => NaN :: group_cumsum acc labels' values'
      | _ =>
          let s := fadd (acc_get g acc) x in
          s :: group_cumsum ((g, s) :: acc) labels' values'
      end
  | _, _ => []
  end.

(** The cumulative-revenue cell: [kpi_data_sorted] with its column
    [cumulative_revenue]. *)
Definition kpi_data_sorted (kpi : frame) : option frame :=
  sorted <~ sort_values kpi ;;
  labels <~ str_column "group" sorted ;;
  revenue <~ column "revenue" sorted ;;
  Some (set_column "cumulative_revenue" (group_cumsum [] labels revenue)
          sorted).

(** The measure that counts the rows labelled [label]. *)
Definition indicator (label : string) (e : event) : Q :=
  if String.eqb (event_type e) label then 1%Q else 0%Q.

(** The number of rows of group [g] labelled [label], as a rational. *)
Definition group_count (label g : string) (data : list event) : Q :=
  inject_Z (Z.of_nat (count_type label
                        (filter (fun e => String.eqb (group e) g) data))).

(** ** The daily-events cell *)

Fixpoint insert_by {A} (leb : A -> A -> bool) (x : A) (l : list A) : list A :=
  match l with
  | [] => [x]
  | y :: l' => if leb x y then x :: l else y :: insert_by leb x l'
  end.

Definition sort_by {A} (leb : A -> A -> bool) (l : list A) : list A :=
  fold_right (insert_by leb) [] l.

Fixpoint unique_by {A} (eqb : A -> A -> bool) (l : list A) : list A :=
  match l with
  | [] => []
  | x :: l' =>
      if existsb (eqb x) l' then unique_by eqb l' else x :: unique_by eqb l'
  end.

(** The index of the unstacked table: the dates of the Event table,
    sorted. *)
Definition date_index (data : list event) : list timestamp :=
  sort_by Z.leb (unique_by Z.eqb (map date data)).

(** Its columns: the groups of the Event table, sorted. *)
Definition group_columns (data : list event) : list string :=
  sort_by String.leb (unique_by String.eqb (map group data)).

(** [data.groupby(['date', 'group'])['event_type'].count().unstack()]: one
    line per date and one cell per group, holding the number of rows of
    the pair, or [nan] where the pair has no row. *)
Definition daily_events (data : list event)
  : list (timestamp * list (string * float64)) :=
  map (fun d =>
         (d, map (fun g =>
                    (g, match rows_of (g, d) data with
                        | [] => NaN
                        | x => of_count (length x)
                        end))
               (group_columns data)))
      (date_index data).

(** The configuration [p] with [revenue_global] switched off. *)
Definition per_group_revenue (p : params) : params := {|
  num_days := num_days p;
  num_users := num_users p;
  events_low := events_low p;
  events_high := events_high p;
  revenue_global := false;
  r_revenue_global := r_revenue_global p;
  p_click_control := p_click_control p;
  p_purchase_control := p_purchase_control p;
  r_revenue_control := r_revenue_control p;
  p_click_treatment := p_click_treatment p;
  p_purchase_treatment := p_purchase_treatment p;
  r_revenue_treatment := r_revenue_treatment p;
  groups := groups p
|}.

(** The row [e] with another user id. *)
Definition with_user_id (uid : Z) (e : event) : event :=
  Build_event uid (date e) (event_type e) (group e) (revenue e).

(** The order of the group keys as a relation. *)
Definition key_le (a b : key) : Prop := key_leb a b = true.

(** The revenue of the rows with key [k]. *)
Definition revenue_of (data : list event) (k : key) : Q :=
  Qsum (map revenue (rows_of k data)).

(** The revenue of group [g] up to and including day [d]. *)
Definition revenue_to_date (data : list event) (g : string) (d : timestamp)
  : Q :=
  Qsum (map revenue
          (filter (fun e => String.eqb (group e) g && (date e <=? d)) data)).

(** For every key of [ks], the total of the measure [m] over the keys of
    its group met so far, [pre] being the keys before [ks]. *)
Fixpoint running_totals (m : key -> Q) (pre ks : list key) : list Q :=
  match ks with
  | [] => []
  | k :: ks' =>
      Qsum (map m (filter (fun j => String.eqb (fst j) (fst k))
                     (pre ++ [k])%list))
      :: running_totals m (pre ++ [k])%list ks'
  end.

(** * Properties *)

(** ** Rationals *)

Lemma Qltb_lt (x y : Q) : Qltb x y = true <-> (x < y)%Q.
Proof.
  unfold Qltb. rewrite negb_true_iff.
  split; intro Hxy.
  - apply Qnot_le_lt. intro Hle. apply Qle_bool_iff in Hle. congruence.
  - destruct (Qle_bool y x) eqn:E; [|reflexivity].
    apply Qle_bool_iff in E. exfalso. apply (Qlt_not_le _ _ Hxy E).
Qed.

Lemma Qltb_ge (x y : Q) : Qltb x y = false <-> (y <= x)%Q.
Proof.
  unfold Qltb. rewrite negb_false_iff. apply Qle_bool_iff.
Qed.

Lemma Qmin2_le_l (a b : Q) : (Qmin2 a b <= a)%Q.
Proof.
  unfold Qmin2. destruct (Qle_bool a b) eqn:E.
  - apply Qle_refl.
  - apply Qlt_le_weak, Qltb_lt. unfold Qltb. rewrite E. reflexivity.
Qed.

Lemma Qmin2_le_r (a b : Q) : (Qmin2 a b <= b)%Q.
Proof.
  unfold Qmin2. destruct (Qle_bool a b) eqn:E.
  - apply Qle_bool_iff, E.
  - apply Qle_refl.
Qed.

Lemma Qmin2_glb (a b c : Q) : (c <= a)%Q -> (c <= b)%Q -> (c <= Qmin2 a b)%Q.
Proof.
  intros Ha Hb. unfold Qmin2. destruct (Qle_bool a b); assumption.
Qed.

Lemma Qmax2_ge_l (a b : Q) : (a <= Qmax2 a b)%Q.
Proof.
  unfold Qmax2. destruct (Qle_bool a b) eqn:E.
  - apply Qle_bool_iff, E.
  - apply Qle_refl.
Qed.

Lemma Qmax2_lub (a b c : Q) : (a <= c)%Q -> (b <= c)%Q -> (Qmax2 a b <= c)%Q.
Proof.
  intros Ha Hb. unfold Qmax2. destruct (Qle_bool a b); assumption.
Qed.

(** ** The upper end of [np.random.uniform] *)

Lemma uniform_max_ge (low high : Q) : (low <= uniform_max low high)%Q.
Proof.
  unfold uniform_max. apply Qmax2_ge_l.
Qed.

Lemma uniform_max_le (low high : Q) :
  (low <= high)%Q -> (uniform_max low high <= high)%Q.
Proof.
  intro Hle. unfold uniform_max.
  apply Qmax2_lub; [exact Hle | apply Qmin2_le_l].
Qed.

(** Rounding keeps a float and takes any other number to the nearest float,
    a tie to the one with an even significand. *)
Lemma fl_examples :
  fl 20 = 20%Q /\ fl (1 # 4) = (1 # 4)%Q /\ fl (-3) = (-3)%Q
  /\ fl (1 # 10) = (3602879701896397 # 36028797018963968)%Q
  /\ fl (inject_Z (2 ^ 53 + 1)) = inject_Z (2 ^ 53)
  /\ fl (inject_Z (2 ^ 53 + 3)) = inject_Z (2 ^ 53 + 4).
Proof.
  vm_compute. repeat split; reflexivity.
Qed.

(** The largest revenue of the three ranges of the notebook: the upper
    bound is excluded for [(20, 200)] and [(20, 100)] and reached for
    [(200, 300)]. *)
Lemma uniform_max_global :
  (uniform_max 20 200 == 200 - (1 # 2 ^ 45))%Q /\ (uniform_max 20 200 < 200)%Q.
Proof.
  split; vm_compute; reflexivity.
Qed.

Lemma uniform_max_control : (uniform_max 200 300 == 300)%Q.
Proof.
  vm_compute. reflexivity.
Qed.

Lemma uniform_max_treatment :
  (uniform_max 20 100 == 100 - (1 # 2 ^ 46))%Q /\ (uniform_max 20 100 < 100)%Q.
Proof.
  split; vm_compute; reflexivity.
Qed.

(** ** The monad *)

Lemma bind_Some {G A B} (m : M G A) (k : A -> M G B) st b st' :
  bind m k st = Some (b, st') <->
  exists a st1, m st = Some (a, st1) /\ k a st1 = Some (b, st').
Proof.
  unfold bind. split.
  - destruct (m st) as [[a st1]|]; [|discriminate].
    intro Hk. exists a, st1. auto.
  - intros (a & st1 & Hm & Hk). now rewrite Hm.
Qed.

Lemma for_each_inv {G A B} (P : A -> B -> Prop) (body : A -> M G B) xs :
  (forall x st y st', In x xs -> body x st = Some (y, st') -> P x y) ->
  forall st ys st',
    for_each xs body st = Some (ys, st') -> Forall2 P xs ys.
Proof.
  induction xs as [|x xs IH]; intros Hbody st ys st' Hrun.
  - cbn in Hrun. injection Hrun as <- _. constructor.
  - cbn [for_each] in Hrun.
    apply bind_Some in Hrun as (y & st1 & Hy & Hrun).
    apply bind_Some in Hrun as (ys' & st2 & Hys & Hrun).
    injection Hrun as <- _.
    constructor.
    + eapply Hbody; [left; reflexivity | exact Hy].
    + eapply IH; [|exact Hys].
      intros. eapply Hbody; [right|]; eassumption.
Qed.

Lemma for_each_total {G A B} (body : A -> M G B) xs :
  (forall x st, In x xs -> exists y st', body x st = Some (y, st')) ->
  forall st, exists ys st', for_each xs body st = Some (ys, st').
Proof.
  induction xs as [|x xs IH]; intros Hbody st.
  - exists [], st. reflexivity.
  - destruct (Hbody x st (or_introl eq_refl)) as (y & st1 & Hy).
    destruct (IH (fun x' st' Hin => Hbody x' st' (or_intror Hin)) st1)
      as (ys & st2 & Hys).
    exists (y :: ys), st2.
    cbn [for_each]. unfold bind at 1. rewrite Hy.
    unfold bind at 1. rewrite Hys. reflexivity.
Qed.

(** ** The arrays of one day *)

Lemma label_of_cases (pc pp u v : Q) :
  label_of pc pp u v =
  if Qltb u pc then (if Qltb v pp then "purchase" else "click") else "view".
Proof.
  unfold label_of. cbn.
  destruct (Qltb u pc), (Qltb v pp); reflexivity.
Qed.

Lemma label_events_combine (pc pp : Q) (u v : list Q) :
  length v = length u ->
  label_events (length u) (below u pc)
    (mask_and (below u pc) (below v pp))
  = map (fun uv => label_of pc pp (fst uv) (snd uv)) (combine u v).
Proof.
  revert v. induction u as [|a u IH]; intros [|b v] Hlen;
    try discriminate Hlen; [reflexivity|].
  injection Hlen as Hlen. specialize (IH v Hlen).
  unfold label_events, mask_set, mask_and, below in *.
  cbn [length repeat map combine fst snd].
  rewrite <- IH, label_of_cases.
  destruct (Qltb a pc), (Qltb b pp); reflexivity.
Qed.

Lemma mask_sum_cons (b : bool) (m : list bool) :
  mask_sum (b :: m) = if b then S (mask_sum m) else mask_sum m.
Proof. destruct b; reflexivity. Qed.

Lemma day_rows_Forall2 (P : Q -> Prop) (pc pp : Q) (d : timestamp)
  (g : string) :
  forall ids u v drawn,
    length u = length ids ->
    length v = length ids ->
    length drawn = mask_sum (mask_and (below u pc) (below v pp)) ->
    Forall P drawn ->
    Forall2 (row_of_draws P pc pp d g) (combine ids (combine u v))
      (day_frame ids d
         (map (fun uv => label_of pc pp (fst uv) (snd uv)) (combine u v)) g
         (mask_put (repeat 0%Q (length ids))
            (mask_and (below u pc) (below v pp)) drawn)).
Proof.
  induction ids as [|uid ids IH]; intros [|a u] [|b v] drawn Hu Hv Hd HP;
    try discriminate Hu; try discriminate Hv; [constructor|].
  injection Hu as Hu. injection Hv as Hv.
  unfold mask_and, below in *.
  cbn [map combine fst snd length repeat] in *.
  rewrite mask_sum_cons in Hd.
  destruct (Qltb a pc && Qltb b pp) eqn:Epur.
  - destruct drawn as [|r drawn]; [discriminate|].
    injection Hd as Hd. inversion HP as [|? ? Hr HP']; subst.
    cbn [mask_put]. unfold day_frame. cbn [combine map fst snd].
    constructor.
    + unfold row_of_draws. cbn [user_id date group event_type revenue fst snd].
      rewrite Epur. auto.
    + apply (IH u v drawn Hu Hv Hd HP').
  - cbn [mask_put]. unfold day_frame. cbn [combine map fst snd].
    constructor.
    + unfold row_of_draws. cbn [user_id date group event_type revenue fst snd].
      rewrite Epur. auto.
    + apply (IH u v drawn Hu Hv Hd HP).
Qed.

Lemma Forall2_nth_error_r {A B} (R : A -> B -> Prop) xs ys :
  Forall2 R xs ys ->
  forall i y, nth_error ys i = Some y ->
  exists x, nth_error xs i = Some x /\ R x y.
Proof.
  induction 1 as [|x y xs ys Hxy _ IH]; intros [|i] y0 Hy;
    try discriminate.
  - injection Hy as <-. exists x. auto.
  - apply (IH i y0 Hy).
Qed.

Lemma Forall2_In_r {A B} (R : A -> B -> Prop) xs ys :
  Forall2 R xs ys ->
  forall y, In y ys -> exists x, In x xs /\ R x y.
Proof.
  induction 1 as [|x y xs ys Hxy _ IH]; intros y0 Hin; [destruct Hin|].
  destruct Hin as [<-|Hin].
  - exists x. split; [left; reflexivity | exact Hxy].
  - destruct (IH y0 Hin) as (x0 & Hx0 & HR).
    exists x0. split; [right|]; assumption.
Qed.

Lemma Forall2_length_eq {A B} (R : A -> B -> Prop) xs ys :
  Forall2 R xs ys -> length xs = length ys.
Proof. induction 1; cbn; congruence. Qed.

Lemma nth_error_combine_inv {A B} (xs : list A) (ys : list B) :
  forall i x y,
    nth_error (combine xs ys) i = Some (x, y) ->
    nth_error xs i = Some x /\ nth_error ys i = Some y.
Proof.
  revert ys. induction xs as [|a xs IH]; intros [|b ys] [|i] x y Hn;
    try discriminate.
  - injection Hn as <- <-. auto.
  - apply (IH ys i x y Hn).
Qed.

(** ** One day of the simulation *)

Section Day.

Context {G : Type} `{GeneratorLaws G}.

(** The loop body returns exactly when the event range is not empty and
    the drawn count can be served; its result is the frame of its draws. *)
Lemma simulate_day_inv (p : params) (d : timestamp) (g : string) st rows st' :
  simulate_day p d g st = Some (rows, st') ->
  exists t,
    draws_from p g st t st' /\
    events_low p < events_high p /\
    0 <= d_num_views t /\
    rows = build_day p d g t.
Proof.
  unfold simulate_day, events_per_day, np_randint, np_choice, np_rand,
    np_uniform.
  intro Hrun.
  destruct (int64_bounds (events_low p) (events_high p)); [|discriminate].
  destruct (events_low p <? events_high p) eqn:Erange; [|discriminate].
  cbn [andb] in Hrun.
  apply Z.ltb_lt in Erange.
  apply bind_Some in Hrun as (n & st1 & Hn & Hrun).
  apply bind_Some in Hrun as (ids & st2 & Hids & Hrun).
  destruct (n <? 0) eqn:Eneg; [discriminate|].
  apply Z.ltb_ge in Eneg.
  destruct ((length (users p) =? 0)%nat && negb (n =? 0)); [discriminate|].
  apply bind_Some in Hrun as (u & st3 & Hu & Hrun).
  apply bind_Some in Hrun as (v & st4 & Hv & Hrun).
  apply bind_Some in Hrun as (drawn & st5 & Hdrawn & Hrun).
  unfold draw, ret in *.
  injection Hn as Hn. injection Hids as Hids. injection Hu as Hu.
  injection Hv as Hv. injection Hdrawn as Hdrawn.
  injection Hrun as Hrows Hst. subst st5.
  exists {| d_num_views := n; d_user_ids := ids; d_click := u;
            d_purchase := v; d_revenue := drawn |}.
  split; [|split; [exact Erange | split; [exact Eneg | symmetry; exact Hrows]]].
  exists st1, st2, st3, st4. cbn. repeat split; assumption.
Qed.

(** What the contracts of the generator say about the draws of a day. *)
Lemma draws_from_laws (p : params) (g : string) st t st' :
  draws_from p g st t st' ->
  events_low p < events_high p ->
  events_low p <= d_num_views t < events_high p /\
  length (d_user_ids t) = Z.to_nat (d_num_views t) /\
  length (d_click t) = Z.to_nat (d_num_views t) /\
  length (d_purchase t) = Z.to_nat (d_num_views t) /\
  Forall (fun x => 0 <= x /\ x < 1)%Q (d_click t) /\
  Forall (fun x => 0 <= x /\ x < 1)%Q (d_purchase t) /\
  length (d_revenue t) = mask_sum (purchase_mask_of p g t) /\
  ((fst (r_revenue p g) < snd (r_revenue p g))%Q ->
   Forall (fun x => fst (r_revenue p g) <= x
                    /\ x <= uniform_max (fst (r_revenue p g))
                                        (snd (r_revenue p g)))%Q
     (d_revenue t)).
Proof.
  intros (st1 & st2 & st3 & st4 & Hn & Hids & Hu & Hv & Hr) Hrange.
  pose proof (randint_range _ _ st Hrange) as Hn'. rewrite Hn in Hn'.
  pose proof (choice_length (users p) (Z.to_nat (d_num_views t)) st1) as Hi.
  rewrite Hids in Hi.
  pose proof (rand_length (Z.to_nat (d_num_views t)) st2) as Hlu.
  pose proof (rand_range (Z.to_nat (d_num_views t)) st2) as Hru.
  rewrite Hu in Hlu, Hru.
  pose proof (rand_length (Z.to_nat (d_num_views t)) st3) as Hlv.
  pose proof (rand_range (Z.to_nat (d_num_views t)) st3) as Hrv.
  rewrite Hv in Hlv, Hrv.
  pose proof (uniform_length (fst (r_revenue p g)) (snd (r_revenue p g))
                (mask_sum (purchase_mask_of p g t)) st4) as Hlr.
  pose proof (uniform_range (fst (r_revenue p g)) (snd (r_revenue p g))
                (mask_sum (purchase_mask_of p g t)) st4) as Hrr.
  rewrite Hr in Hlr, Hrr.
  cbn [fst] in *. repeat split; try assumption; apply Hn'.
Qed.

(** The rows of a day, one per draw, related to their draws. *)
Lemma build_day_rows (P : Q -> Prop) (p : params) (d : timestamp)
  (g : string) (t : day_draws) :
  length (d_user_ids t) = Z.to_nat (d_num_views t) ->
  length (d_click t) = Z.to_nat (d_num_views t) ->
  length (d_purchase t) = Z.to_nat (d_num_views t) ->
  length (d_revenue t) = mask_sum (purchase_mask_of p g t) ->
  Forall P (d_revenue t) ->
  Forall2 (row_of_draws P (p_click p g) (p_purchase p g) d g)
    (combine (d_user_ids t) (combine (d_click t) (d_purchase t)))
    (build_day p d g t).
Proof.
  intros Hids Hu Hv Hr HP.
  unfold build_day, purchase_mask_of, click_mask_of in *.
  rewrite <- Hu at 1.
  rewrite label_events_combine by congruence.
  rewrite <- Hids.
  apply day_rows_Forall2; congruence || assumption.
Qed.

(** The loop body returns on every valid configuration. *)
Lemma simulate_day_total (p : params) (d : timestamp) (g : string) st :
  valid_params p = true ->
  exists rows st', simulate_day p d g st = Some (rows, st').
Proof.
  unfold valid_params. rewrite !andb_true_iff.
  intros [[[[[_ _] Hlow] Hrange] Husers] Hhigh].
  apply Z.leb_le in Hlow. apply Nat.leb_le in Husers.
  pose proof Hrange as Hlt. apply Z.ltb_lt in Hlt.
  assert (Hbounds : int64_bounds (events_low p) (events_high p) = true).
  { unfold int64_bounds. rewrite Hhigh, andb_true_r. apply Z.leb_le. lia. }
  unfold simulate_day, events_per_day, np_randint, np_choice, np_rand,
    np_uniform.
  rewrite Hbounds, Hrange. cbn [andb].
  unfold bind at 1. unfold draw at 1.
  destruct (gen_randint (events_low p) (events_high p) st) as [n st1] eqn:En.
  pose proof (randint_range _ _ st Hlt) as Hn. rewrite En in Hn. cbn in Hn.
  assert (Hneg : (n <? 0) = false) by (apply Z.ltb_ge; lia).
  rewrite Hneg.
  assert (Hpool : (length (users p) =? 0)%nat = false).
  { apply Nat.eqb_neq. unfold users. rewrite length_map, length_seq. lia. }
  rewrite Hpool. cbn [andb].
  unfold bind, draw, ret.
  repeat match goal with
         | |- context [let (_, _) := ?x in _] => destruct x
         | |- context [match ?x with (_, _) => _ end] => destruct x
         end.
  eauto.
Qed.

End Day.

(** ** The whole simulation *)

Lemma Forall2_flat {A B C} (R : A -> B -> C -> Prop) (bs : list B) :
  forall (xs : list A) (yss : list (list C)),
    Forall2 (fun x ys => Forall2 (R x) bs ys) xs yss ->
    Forall2 (fun xb y => R (fst xb) (snd xb) y)
      (flat_map (fun x => map (pair x) bs) xs) (concat yss).
Proof.
  induction 1 as [|x ys xs yss Hx _ IH]; cbn; [constructor|].
  apply Forall2_app; [|exact IH].
  clear IH. induction Hx; cbn; constructor; assumption.
Qed.

Section Simulation.

Context {G : Type} `{GeneratorLaws G}.

(** The Event table is the concatenation of one frame per (date, group)
    pair of the loop, each returned by a run of the loop body. *)
Lemma simulate_inv (p : params) st data st' :
  simulate p st = Some (data, st') ->
  exists frames : list (list event),
    data = concat frames /\
    frames <> [] /\
    Forall2 (fun dg rows => exists s1 s2,
               simulate_day p (fst dg) (snd dg) s1 = Some (rows, s2))
      (loop_pairs p) frames.
Proof.
  unfold simulate. intro Hrun.
  apply bind_Some in Hrun as (per_date & st1 & Hloop & Hcat).
  exists (concat per_date).
  unfold pd_concat in Hcat.
  destruct (concat per_date) as [|f fs] eqn:Ef; [discriminate|].
  injection Hcat as <- _.
  split; [reflexivity | split; [discriminate|]].
  rewrite <- Ef. unfold loop_pairs.
  apply (Forall2_flat (fun d g rows => exists s1 s2,
                         simulate_day p d g s1 = Some (rows, s2))).
  eapply for_each_inv; [|exact Hloop].
  intros d s fs' s' _ Hinner. cbn beta in Hinner.
  eapply for_each_inv; [|exact Hinner].
  intros g s1 rows s2 _ Hday. eauto.
Qed.

(** The simulation cell returns on every valid configuration. *)
Lemma simulate_total (p : params) st :
  valid_params p = true ->
  exists data st', simulate p st = Some (data, st').
Proof.
  intro Hvalid.
  destruct (for_each_total
              (fun d => for_each (groups p) (fun g => simulate_day p d g))
              (dates p)) with (st := st) as (per_date & st1 & Hloop).
  { intros d s _. apply for_each_total.
    intros g s1 _. apply simulate_day_total. exact Hvalid. }
  exists (concat (concat per_date)), st1.
  unfold simulate. apply bind_Some. exists per_date, st1.
  split; [exact Hloop|].
  unfold pd_concat.
  destruct (concat per_date) as [|f fs] eqn:Ef; [|reflexivity].
  exfalso.
  assert (Hlen : length (concat per_date) = length (loop_pairs p)).
  { symmetry. eapply Forall2_length_eq.
    apply (Forall2_flat (fun (d : timestamp) (g : string)
                             (rows : list event) => True)).
    eapply for_each_inv; [|exact Hloop].
    intros d s fs' s' _ Hinner. cbn beta in Hinner.
    eapply for_each_inv; [|exact Hinner]. auto. }
  rewrite Ef in Hlen. cbn in Hlen.
  unfold valid_params in Hvalid. rewrite !andb_true_iff in Hvalid.
  destruct Hvalid as [[[[[Hdays Hgroups] _] _] _] _].
  apply Nat.leb_le in Hdays. apply negb_true_iff, Nat.eqb_neq in Hgroups.
  unfold loop_pairs, dates in Hlen.
  destruct (num_days p) as [|k]; [lia|].
  destruct (groups p) as [|g gs]; [contradiction|].
  cbn in Hlen. discriminate.
Qed.

End Simulation.

(** ** groupby *)

Lemma key_eqb_eq (a b : key) : key_eqb a b = true <-> a = b.
Proof.
  destruct a as [g d], b as [g' d']. unfold key_eqb. cbn [fst snd].
  rewrite andb_true_iff, String.eqb_eq, Z.eqb_eq.
  split; [intros [-> ->]; reflexivity | intro E; injection E; auto].
Qed.

Lemma key_eqb_refl (a : key) : key_eqb a a = true.
Proof. now apply key_eqb_eq. Qed.

Lemma existsb_key (k : key) (l : list key) :
  existsb (key_eqb k) l = true <-> In k l.
Proof.
  rewrite existsb_exists. split.
  - intros (k' & Hin & Heq). apply key_eqb_eq in Heq. now subst.
  - intro Hin. exists k. split; [exact Hin | apply key_eqb_refl].
Qed.

Lemma unique_In (k : key) (l : list key) : In k (unique l) <-> In k l.
Proof.
  induction l as [|k' l IH]; [reflexivity|].
  cbn [unique]. destruct (existsb (key_eqb k') l) eqn:E.
  - rewrite IH. cbn. split; [auto|].
    intros [<-|Hin]; [apply existsb_key; exact E | exact Hin].
  - cbn. now rewrite IH.
Qed.

Lemma unique_NoDup (l : list key) : NoDup (unique l).
Proof.
  induction l as [|k l IH]; [constructor|].
  cbn [unique]. destruct (existsb (key_eqb k) l) eqn:E; [exact IH|].
  constructor; [|exact IH].
  rewrite unique_In. intro Hin. apply existsb_key in Hin. congruence.
Qed.

Lemma insert_key_perm (k : key) (l : list key) :
  Permutation (insert_key k l) (k :: l).
Proof.
  induction l as [|k' l IH]; [reflexivity|].
  cbn [insert_key]. destruct (key_leb k k'); [reflexivity|].
  rewrite IH. apply perm_swap.
Qed.

Lemma sort_keys_perm (l : list key) : Permutation (sort_keys l) l.
Proof.
  induction l as [|k l IH]; [reflexivity|].
  cbn [sort_keys fold_right]. rewrite insert_key_perm.
  constructor. exact IH.
Qed.

Lemma group_keys_NoDup (data : list event) : NoDup (group_keys data).
Proof.
  unfold group_keys.
  eapply Permutation_NoDup; [symmetry; apply sort_keys_perm|].
  apply unique_NoDup.
Qed.

Lemma group_keys_In (data : list event) (k : key) :
  In k (group_keys data) <-> exists e, In e data /\ key_of e = k.
Proof.
  unfold group_keys. split.
  - intro Hin. apply (Permutation_in _ (sort_keys_perm _)) in Hin.
    apply unique_In, in_map_iff in Hin as (e & He & Hin). eauto.
  - intros (e & Hin & He).
    apply (Permutation_in _ (Permutation_sym (sort_keys_perm _))).
    apply unique_In, in_map_iff. eauto.
Qed.

Lemma group_keys_nil (data : list event) :
  group_keys data = [] <-> data = [].
Proof.
  split; [|intros ->; reflexivity].
  destruct data as [|e data]; [reflexivity|]. intro Hnil. exfalso.
  assert (Hin : In (key_of e) (group_keys (e :: data))).
  { apply group_keys_In. exists e. split; [left|]; reflexivity. }
  rewrite Hnil in Hin. destruct Hin.
Qed.

Lemma groupby_keys (data : list event) :
  map fst (groupby data) = group_keys data.
Proof.
  unfold groupby. rewrite map_map. cbn [fst]. apply map_id.
Qed.

Lemma groupby_In (data : list event) (k : key) (x : list event) :
  In (k, x) (groupby data) ->
  In k (group_keys data) /\ x = rows_of k data.
Proof.
  unfold groupby. intro Hin.
  apply in_map_iff in Hin as (k' & E & Hin).
  injection E as <- <-. auto.
Qed.

(** ** The KPI cell, column by column *)

Lemma column_map {A} (name : string) (b : A -> row) (f : A -> float64)
  (xs : list A) :
  (forall x, get_num name (b x) = Some (f x)) ->
  column name (map b xs) = Some (map f xs).
Proof.
  intro Hget. induction xs as [|x xs IH]; [reflexivity|].
  cbn [map column]. now rewrite Hget, IH.
Qed.

Lemma series_div_map {A} (f h : A -> float64) (xs : list A) :
  series_div (map f xs) (map h xs) = map (fun x => fdiv (f x) (h x)) xs.
Proof.
  unfold series_div. induction xs as [|x xs IH]; [reflexivity|].
  cbn [map combine fst snd] in *. now rewrite IH.
Qed.

Lemma series_scale_map {A} (f : A -> float64) (k : float64) (xs : list A) :
  series_scale (map f xs) k = map (fun x => fmul (f x) k) xs.
Proof. unfold series_scale. apply map_map. Qed.

Lemma set_column_map {A} (name : string) (b : A -> row) (f : A -> float64)
  (xs : list A) :
  set_column name (map f xs) (map b xs)
  = map (fun x => row_set name (CNum (f x)) (b x)) xs.
Proof.
  unfold set_column. induction xs as [|x xs IH]; [reflexivity|].
  cbn [map combine fst snd] in *. now rewrite IH.
Qed.

Lemma clean_cell (x : float64) :
  fillna_0 (replace_inf (CNum x)) = CNum (clean x).
Proof. destruct x; reflexivity. Qed.

(** The KPI cell raises on the empty table and otherwise returns the row
    [kpi_row_of] of every group. *)
Lemma kpi_data_rows (data : list event) :
  data <> [] ->
  kpi_data data
  = Some (map (fun kx => kpi_row_of (fst kx) (snd kx)) (groupby data)).
Proof.
  intro Hdata. unfold kpi_data, apply_reset_index.
  destruct (groupby data) as [|kx0 gs0] eqn:Egs.
  { exfalso. apply Hdata, group_keys_nil.
    rewrite <- groupby_keys, Egs. reflexivity. }
  generalize (kx0 :: gs0). clear. intro gs.
  cbn [obind]. unfold add_ratios.
  erewrite !column_map by (intro; reflexivity). cbn [obind].
  rewrite series_div_map, series_scale_map, set_column_map.
  erewrite !column_map by (intro; reflexivity). cbn [obind].
  rewrite series_div_map, set_column_map.
  erewrite !column_map by (intro; reflexivity). cbn [obind].
  rewrite series_div_map, series_scale_map, set_column_map.
  unfold handle_div_by_zero, map_cells. rewrite !map_map.
  f_equal. apply map_ext. intros [k x].
  cbn [map fst snd row_set kpi_series String.eqb Ascii.eqb Bool.eqb].
  unfold kpi_row_of. cbn [fst snd].
  rewrite !clean_cell. reflexivity.
Qed.

Lemma kpi_data_nil : kpi_data [] = None.
Proof. reflexivity. Qed.

(** ** The scripted generator keeps the contracts *)

Lemma clamp_unit (u : Q) : (0 <= clamp u /\ clamp u < 1)%Q.
Proof.
  unfold clamp.
  destruct (Qle_bool 0 u && Qltb u 1) eqn:E.
  - apply andb_true_iff in E as [Hlo Hhi].
    split; [apply Qle_bool_iff, Hlo | apply Qltb_lt, Hhi].
  - split; [apply Qle_refl | reflexivity].
Qed.

Lemma next_unit_range (st : scripted) :
  (0 <= fst (next_unit st) /\ fst (next_unit st) < 1)%Q.
Proof.
  unfold next_unit. destruct (tape st) as [|u t]; cbn [fst].
  - unfold lcg_next.
    pose proof (Z.mod_pos_bound (1103515245 * lcg st + 12345) 2147483648
                  eq_refl) as Hmod.
    set (m := (1103515245 * lcg st + 12345) mod 2147483648) in *.
    unfold Qle, Qlt. cbn [Qnum Qden]. lia.
  - apply clamp_unit.
Qed.

Lemma units_length (n : nat) : forall st, length (fst (units n st)) = n.
Proof.
  induction n as [|n IH]; intro st; [reflexivity|].
  cbn [units]. destruct (next_unit st) as [u st1].
  specialize (IH st1). destruct (units n st1) as [us st2].
  cbn in *. now rewrite IH.
Qed.

Lemma units_range (n : nat) :
  forall st, Forall (fun x => 0 <= x /\ x < 1)%Q (fst (units n st)).
Proof.
  induction n as [|n IH]; intro st; [constructor|].
  cbn [units]. pose proof (next_unit_range st) as Hu.
  destruct (next_unit st) as [u st1].
  specialize (IH st1). destruct (units n st1) as [us st2].
  cbn in *. constructor; assumption.
Qed.

Lemma scale_index_range (u : Q) (k : Z) :
  (0 <= u /\ u < 1)%Q -> 0 < k -> 0 <= scale_index u k < k.
Proof.
  intros [Hlo Hhi] Hk. unfold scale_index.
  assert (Hk' : (0 < inject_Z k)%Q).
  { change 0%Q with (inject_Z 0). rewrite <- Zlt_Qlt. exact Hk. }
  split.
  - change 0 with (Qfloor 0). apply Qfloor_resp_le. nra.
  - rewrite Zlt_Qlt.
    apply Qle_lt_trans with (u * inject_Z k)%Q; [apply Qfloor_le | nra].
Qed.

#[export] Instance scripted_laws : GeneratorLaws scripted.
Proof.
  constructor.
  - intros low high st Hlt. cbn -[scale_index].
    pose proof (next_unit_range st) as Hu.
    destruct (next_unit st) as [u st1]. cbn [fst] in *.
    pose proof (scale_index_range u (high - low) Hu ltac:(lia)). lia.
  - intros pool n st. cbn.
    pose proof (units_length n st) as Hlen.
    destruct (units n st) as [us st1]. cbn [fst] in *.
    now rewrite length_map.
  - intros pool n st Hpool. cbn -[scale_index].
    pose proof (units_range n st) as Hus.
    destruct (units n st) as [us st1]. cbn [fst] in *.
    apply Forall_map. eapply Forall_impl; [|exact Hus].
    intros u Hu. cbn beta in Hu |- *. apply nth_In.
    assert (H1 : 0 < Z.of_nat (length pool)).
    { destruct pool; [contradiction | cbn [length]; lia]. }
    pose proof (scale_index_range u _ Hu H1). lia.
  - intros n st. apply units_length.
  - intros n st. apply units_range.
  - intros low high n st. cbn.
    pose proof (units_length n st) as Hlen.
    destruct (units n st) as [us st1]. cbn [fst] in *.
    now rewrite length_map.
  - intros low high n st Hlt. cbn -[uniform_max Qmin2].
    pose proof (units_range n st) as Hus.
    destruct (units n st) as [us st1]. cbn [fst] in *.
    apply Forall_map. eapply Forall_impl; [|exact Hus].
    intros u Hu. cbn beta in Hu |- *. split.
    + apply Qmin2_glb; [nra | apply uniform_max_ge].
    + apply Qmin2_le_r.
Qed.

(** ** Rows of the Event table *)

Lemma Forall_guarded {A} (C : Prop) (P : A -> Prop) (l : list A) :
  (C -> Forall P l) -> Forall (fun x => C -> P x) l.
Proof.
  intro HC. apply Forall_forall. intros x Hin Hc.
  specialize (HC Hc). rewrite Forall_forall in HC. auto.
Qed.

Lemma loop_pairs_In (p : params) (d : timestamp) (g : string) :
  In (d, g) (loop_pairs p) <-> In d (dates p) /\ In g (groups p).
Proof.
  unfold loop_pairs. rewrite in_flat_map. split.
  - intros (d' & Hd & Hin). apply in_map_iff in Hin as (g' & E & Hg).
    injection E as <- <-. auto.
  - intros [Hd Hg]. exists d. split; [exact Hd|].
    apply in_map_iff. eauto.
Qed.

Section Rows.

Context {G : Type} `{GeneratorLaws G}.

(** Every row of a day carries the date and group of the loop, one of the
    three labels, a revenue of the configured range when it is a purchase
    and revenue 0 otherwise; the day has as many rows as events drawn. *)
Lemma simulate_day_rows (p : params) (d : timestamp) (g : string)
  st rows st' :
  simulate_day p d g st = Some (rows, st') ->
  events_low p <= Z.of_nat (length rows) < events_high p /\
  Forall (fun e => date e = d /\ group e = g /\ row_invariant p e) rows.
Proof.
  intro Hrun.
  apply simulate_day_inv in Hrun as (t & Hdraws & Hrange & Hpos & ->).
  destruct (draws_from_laws p g st t st' Hdraws Hrange)
    as (Hn & Hids & Hu & Hv & _ & _ & Hr & Hrev).
  apply Forall_guarded in Hrev.
  pose proof (build_day_rows _ p d g t Hids Hu Hv Hr Hrev) as Hrows.
  split.
  - rewrite <- (Forall2_length_eq _ _ _ Hrows).
    rewrite !length_combine, Hids, Hu, Hv, !Nat.min_id. lia.
  - apply Forall_forall. intros e Hin.
    destruct (Forall2_In_r _ _ _ Hrows e Hin)
      as ([uid [u v]] & _ & Hid & Hd & Hg & Hlabel & Hrevenue).
    cbn [fst snd] in *. rewrite label_of_cases in Hlabel.
    split; [exact Hd | split; [exact Hg|]].
    unfold row_invariant. rewrite Hg.
    destruct (Qltb u (p_click p g)), (Qltb v (p_purchase p g));
      cbn [andb] in Hrevenue; rewrite Hlabel;
      (split; [auto | split; [intro E; try discriminate E; auto
                             | intro E; try congruence; auto]]).
Qed.

(** The same for the whole table. *)
Lemma simulate_rows (p : params) st data st' :
  simulate p st = Some (data, st') ->
  Forall (fun e => In (date e, group e) (loop_pairs p) /\ row_invariant p e)
    data.
Proof.
  intro Hrun.
  apply simulate_inv in Hrun as (frames & -> & _ & Hframes).
  apply Forall_concat.
  apply Forall_forall. intros rows Hin.
  destruct (Forall2_In_r _ _ _ Hframes rows Hin)
    as ([d g] & Hdg & s1 & s2 & Hday).
  cbn [fst snd] in Hday.
  apply simulate_day_rows in Hday as [_ Hday].
  eapply Forall_impl; [|exact Hday].
  intros e (Hd & Hg & Hinv). rewrite Hd, Hg. auto.
Qed.

End Rows.

(** With [revenue_global] set, the per-group ranges are never read. *)
Lemma simulate_day_group_ranges {G} `{Generator G} (p : params)
  (rc rt : Q * Q) (d : timestamp) (g : string) (st : G) :
  revenue_global p = true ->
  simulate_day (with_group_ranges p rc rt) d g st = simulate_day p d g st.
Proof.
  intro Hglobal.
  unfold simulate_day, events_per_day, users, p_click, p_purchase, r_revenue.
  cbn [with_group_ranges events_low events_high num_users revenue_global
       r_revenue_global p_click_control p_click_treatment
       p_purchase_control p_purchase_treatment r_revenue_control
       r_revenue_treatment].
  rewrite Hglobal. reflexivity.
Qed.

Lemma for_each_ext {G A B} (body body' : A -> M G B) (xs : list A) :
  (forall x st, body x st = body' x st) ->
  forall st, for_each xs body st = for_each xs body' st.
Proof.
  intro Hext. induction xs as [|x xs IH]; intro st; [reflexivity|].
  cbn [for_each]. unfold bind at 1 3. rewrite Hext.
  destruct (body' x st) as [[y st1]|]; [|reflexivity].
  unfold bind. rewrite IH. reflexivity.
Qed.

Lemma simulate_group_ranges {G} `{Generator G} (p : params)
  (rc rt : Q * Q) (st : G) :
  revenue_global p = true ->
  simulate (with_group_ranges p rc rt) st = simulate p st.
Proof.
  intro Hglobal. unfold simulate, dates.
  cbn [with_group_ranges num_days groups].
  unfold bind.
  rewrite (for_each_ext
             (fun d => for_each (groups p)
                         (fun g => simulate_day (with_group_ranges p rc rt) d g))
             (fun d => for_each (groups p) (fun g => simulate_day p d g))).
  - reflexivity.
  - intros d s. apply for_each_ext.
    intros g s'. apply simulate_day_group_ranges. exact Hglobal.
Qed.

(** ** Counting draws on a grid *)

Lemma filter_map_length {A B} (f : A -> B) (P : B -> bool) (l : list A) :
  length (filter P (map f l)) = length (filter (fun x => P (f x)) l).
Proof.
  induction l as [|x l IH]; [reflexivity|].
  cbn [map filter]. destruct (P (f x)); cbn [length]; now rewrite IH.
Qed.

Lemma filter_pair_length {A B} (f : A -> bool) (h : B -> bool) (a : A)
  (l : list B) :
  length (filter (fun xy => f (fst xy) && h (snd xy)) (map (pair a) l))
  = if f a then length (filter h l) else 0%nat.
Proof.
  induction l as [|y l IH]; [destruct (f a); reflexivity|].
  cbn [map filter fst snd]. destruct (f a); cbn [andb] in *.
  - destruct (h y); cbn [length]; now rewrite IH.
  - exact IH.
Qed.

Lemma filter_list_prod_length {A B} (f : A -> bool) (h : B -> bool)
  (l1 : list A) (l2 : list B) :
  length (filter (fun xy => f (fst xy) && h (snd xy)) (list_prod l1 l2))
  = (length (filter f l1) * length (filter h l2))%nat.
Proof.
  induction l1 as [|a l1 IH]; [reflexivity|].
  cbn [list_prod filter].
  rewrite filter_app, length_app, IH, filter_pair_length.
  destruct (f a); cbn [length]; lia.
Qed.

Lemma filter_seq_below (k : nat) :
  forall n s,
    length (filter (fun i => i <? k)%nat (seq s n)) = Nat.min n (k - s).
Proof.
  induction n as [|n IH]; intro s; [reflexivity|].
  cbn [seq filter]. destruct (s <? k)%nat eqn:E.
  - apply Nat.ltb_lt in E. cbn [length]. rewrite IH. lia.
  - apply Nat.ltb_ge in E. rewrite IH. lia.
Qed.

Lemma grid_below (N : positive) (a : nat) :
  (a <= Pos.to_nat N)%nat ->
  length (filter (fun u => Qltb u (Z.of_nat a # N)) (unit_grid N)) = a.
Proof.
  intro Ha. unfold unit_grid. rewrite filter_map_length.
  rewrite (filter_ext _ (fun i => i <? a)%nat).
  - rewrite filter_seq_below. lia.
  - intro i. destruct (i <? a)%nat eqn:E.
    + apply Nat.ltb_lt in E. apply Qltb_lt.
      unfold Qlt. cbn [Qnum Qden]. nia.
    + apply Nat.ltb_ge in E. apply Qltb_ge.
      unfold Qle. cbn [Qnum Qden]. nia.
Qed.

Lemma label_of_purchase (pc pp u v : Q) :
  String.eqb (label_of pc pp u v) "purchase" = Qltb u pc && Qltb v pp.
Proof.
  rewrite label_of_cases.
  destruct (Qltb u pc), (Qltb v pp); reflexivity.
Qed.

Lemma purchase_pairs_product (N : positive) (a b : nat) :
  (a <= Pos.to_nat N)%nat ->
  (b <= Pos.to_nat N)%nat ->
  purchase_pairs N (Z.of_nat a # N) (Z.of_nat b # N) = (a * b)%nat.
Proof.
  intros Ha Hb. unfold purchase_pairs.
  rewrite (filter_ext _ (fun uv => Qltb (fst uv) (Z.of_nat a # N)
                                   && Qltb (snd uv) (Z.of_nat b # N)))
    by (intro; apply label_of_purchase).
  rewrite (filter_list_prod_length
             (fun u => Qltb u (Z.of_nat a # N))
             (fun v => Qltb v (Z.of_nat b # N))).
  now rewrite !grid_below.
Qed.

(** ** The groups of a simulated table *)

Lemma Forall2_In_l {A B} (R : A -> B -> Prop) xs ys :
  Forall2 R xs ys ->
  forall x, In x xs -> exists y, In y ys /\ R x y.
Proof.
  induction 1 as [|x y xs ys Hxy _ IH]; intros x0 Hin; [destruct Hin|].
  destruct Hin as [<-|Hin].
  - exists y. split; [left; reflexivity | exact Hxy].
  - destruct (IH x0 Hin) as (y0 & Hy0 & HR).
    exists y0. split; [right|]; assumption.
Qed.

Lemma map_pair_NoDup {A B} (a : A) (l : list B) :
  NoDup l -> NoDup (map (pair a) l).
Proof.
  induction 1 as [|y l Hy _ IH]; cbn [map]; constructor; [|exact IH].
  rewrite in_map_iff. intros (y' & E & Hin). injection E as ->. auto.
Qed.

Lemma dates_NoDup (p : params) : NoDup (dates p).
Proof.
  unfold dates.
  generalize (seq_NoDup (num_days p) 0). generalize (seq 0 (num_days p)).
  induction 1 as [|n l Hn _ IH]; cbn [map]; constructor; [|exact IH].
  rewrite in_map_iff. intros (m & E & Hin).
  apply Nat2Z.inj in E. now subst.
Qed.

Lemma loop_pairs_NoDup (p : params) :
  NoDup (groups p) -> NoDup (loop_pairs p).
Proof.
  intro Hg. unfold loop_pairs.
  generalize (dates_NoDup p). generalize (dates p).
  induction 1 as [|d ds Hd _ IH]; cbn [flat_map]; [constructor|].
  apply NoDup_app; [apply map_pair_NoDup, Hg | exact IH |].
  intros [d' g'] Hin Hin'.
  apply in_map_iff in Hin as (g0 & E & _). injection E as <- _.
  apply in_flat_map in Hin' as (d0 & Hd0 & Hin').
  apply in_map_iff in Hin' as (g1 & E & _). injection E as -> _.
  contradiction.
Qed.

Lemma loop_pairs_length (p : params) :
  length (loop_pairs p) = (num_days p * length (groups p))%nat.
Proof.
  unfold loop_pairs, dates.
  generalize (seq 0 (num_days p)) (length_seq (num_days p) 0).
  intros l <-. induction l as [|n l IH]; [reflexivity|].
  cbn [map flat_map length]. rewrite length_app, length_map, IH.
  reflexivity.
Qed.

Lemma count_types_total (x : list event) :
  Forall (fun e => event_type e = "view" \/ event_type e = "click"
                   \/ event_type e = "purchase") x ->
  (count_type "view" x + count_type "click" x + count_type "purchase" x
   = length x)%nat.
Proof.
  unfold count_type.
  induction 1 as [|e x He _ IH]; [reflexivity|].
  cbn [filter length].
  destruct He as [-> | [-> | ->]]; cbn [String.eqb Ascii.eqb Bool.eqb];
    cbn [length]; lia.
Qed.

Section Groups.

Context {G : Type} `{GeneratorLaws G}.

(** When every day draws at least one event, the (group, date) pairs of
    the table are exactly the pairs of the loop. *)
Lemma simulate_keys (p : params) st data st' :
  simulate p st = Some (data, st') ->
  0 < events_low p ->
  forall k,
    (exists e, In e data /\ key_of e = k)
    <-> In (snd k, fst k) (loop_pairs p).
Proof.
  intros Hrun Hlow [g d]. cbn [fst snd]. split.
  - intros (e & Hin & E).
    pose proof (simulate_rows p st data st' Hrun) as Hrows.
    rewrite Forall_forall in Hrows. destruct (Hrows e Hin) as [Hpair _].
    unfold key_of in E. injection E as <- <-. exact Hpair.
  - intro Hin.
    apply simulate_inv in Hrun as (frames & -> & _ & Hframes).
    destruct (Forall2_In_l _ _ _ Hframes (d, g) Hin)
      as (rows & Hrows & s1 & s2 & Hday).
    cbn [fst snd] in Hday.
    apply simulate_day_rows in Hday as [Hlen Hday].
    destruct rows as [|e rows]; [cbn in Hlen; lia|].
    exists e. split.
    + apply in_concat. exists (e :: rows). split; [exact Hrows | left; reflexivity].
    + inversion Hday as [|? ? (Hd & Hg & _) _]; subst.
      reflexivity.
Qed.

Lemma simulate_nonempty (p : params) st data st' :
  simulate p st = Some (data, st') ->
  valid_params p = true ->
  0 < events_low p ->
  data <> [].
Proof.
  intros Hrun Hvalid Hlow ->.
  unfold valid_params in Hvalid. rewrite !andb_true_iff in Hvalid.
  destruct Hvalid as [[[[[Hdays Hgroups] _] _] _] _].
  apply Nat.leb_le in Hdays. apply negb_true_iff, Nat.eqb_neq in Hgroups.
  assert (Hpair : exists dg, In dg (loop_pairs p)).
  { pose proof (loop_pairs_length p) as Hlen.
    destruct (loop_pairs p) as [|dg l]; [cbn in Hlen; nia|].
    exists dg. left. reflexivity. }
  destruct Hpair as ([d g] & Hin).
  destruct (proj2 (simulate_keys p st [] st' Hrun Hlow (g, d)) Hin)
    as (e & [] & _).
Qed.

(** One KPI row per (date, group) pair of the loop. *)
Lemma simulate_group_count (p : params) st data st' :
  simulate p st = Some (data, st') ->
  0 < events_low p ->
  NoDup (groups p) ->
  length (group_keys data) = (num_days p * length (groups p))%nat.
Proof.
  intros Hrun Hlow Hgroups.
  rewrite <- loop_pairs_length.
  rewrite <- (length_map (fun dg : timestamp * string => (snd dg, fst dg))).
  apply Permutation_length, NoDup_Permutation.
  - apply group_keys_NoDup.
  - generalize (loop_pairs_NoDup p Hgroups). generalize (loop_pairs p).
    induction 1 as [|dg l Hdg _ IH]; cbn [map]; constructor; [|exact IH].
    rewrite in_map_iff. intros ([d' g'] & E & Hin).
    destruct dg as [d g]. cbn [fst snd] in E. injection E as -> ->. auto.
  - intros [g d]. rewrite group_keys_In.
    rewrite (simulate_keys p st data st' Hrun Hlow (g, d)). cbn [fst snd].
    rewrite in_map_iff. split.
    + intro Hin. exists (d, g). auto.
    + intros ([d' g'] & E & Hin). cbn [fst snd] in E.
      injection E as -> ->. exact Hin.
Qed.

End Groups.

(** ** Division by zero *)

Lemma clean_div_by_zero (x y : float64) :
  is_value y 0 ->
  clean (fdiv x y) = Fin 0 /\ clean (fmul (fdiv x y) (Fin 100)) = Fin 0.
Proof.
  destruct y as [b| | |]; cbn [is_value]; try contradiction.
  intro Hb. apply Qeq_bool_iff in Hb.
  destruct x as [a| | |]; cbn [fdiv]; rewrite ?Hb.
  - destruct (Qeq_bool a 0); [split; reflexivity|].
    destruct (Qltb a 0); split; reflexivity.
  - destruct (Qltb b 0); split; reflexivity.
  - destruct (Qltb b 0); split; reflexivity.
  - split; reflexivity.
Qed.


(** ** A table with a single group *)

Lemma NoDup_single {A} (k : A) (l : list A) :
  NoDup l -> l <> [] -> (forall x, In x l -> x = k) -> l = [k].
Proof.
  intros Hnd Hne Hall.
  destruct l as [|a [|b l]]; [contradiction| |].
  - now rewrite (Hall a (or_introl eq_refl)).
  - exfalso.
    pose proof (Hall a (or_introl eq_refl)) as Ea.
    pose proof (Hall b (or_intror (or_introl eq_refl))) as Eb.
    subst. inversion Hnd as [|? ? Hnotin _]. apply Hnotin. left. reflexivity.
Qed.

Lemma groupby_single (k : key) (data : list event) :
  data <> [] ->
  Forall (fun e => key_of e = k) data ->
  groupby data = [(k, data)].
Proof.
  intros Hne Hall. unfold groupby.
  rewrite (NoDup_single k (group_keys data)).
  - cbn [map]. unfold rows_of. do 2 f_equal.
    induction Hall as [|e x He _ IH]; [reflexivity|].
    cbn [filter]. rewrite He, key_eqb_refl. f_equal.
    destruct x as [|e' x]; [reflexivity|]. apply IH. discriminate.
  - apply group_keys_NoDup.
  - intro Hnil. apply Hne. now apply group_keys_nil.
  - intros k' Hin. apply group_keys_In in Hin as (e & Hin & <-).
    rewrite Forall_forall in Hall. auto.
Qed.

Lemma count_all_purchase (x : list event) :
  Forall (fun e => event_type e = "purchase") x ->
  count_type "view" x = 0%nat /\ count_type "click" x = 0%nat
  /\ count_type "purchase" x = length x.
Proof.
  unfold count_type.
  induction 1 as [|e x He _ (IH1 & IH2 & IH3)]; [repeat split|].
  cbn [filter]. rewrite He. cbn [String.eqb Ascii.eqb Bool.eqb].
  cbn [length]. auto.
Qed.

Section AllPurchase.

Context {G : Type} `{GeneratorLaws G}.

(** A one-day, one-group table is the frame of its only day. *)
Lemma scenario_single_day (n : Z) (pc pp : Q) (st : G) data st' :
  simulate (scenario n pc pp) st = Some (data, st') ->
  exists s1 s2,
    simulate_day (scenario n pc pp) 0 "control" s1 = Some (data, s2).
Proof.
  intro Hrun.
  apply simulate_inv in Hrun as (frames & -> & _ & Hframes).
  change (loop_pairs (scenario n pc pp)) with [(0, "control")] in Hframes.
  inversion Hframes as [|dg rows l frames' Hday Hrest]; subst.
  inversion Hrest; subst.
  cbn [concat]. rewrite app_nil_r. exact Hday.
Qed.

(** With both probabilities at 1 every draw promotes its row twice. *)
Lemma all_purchase_day (s1 : G) rows s2 :
  simulate_day (scenario 5 1 1) 0 "control" s1 = Some (rows, s2) ->
  length rows = 5%nat /\
  Forall (fun e => event_type e = "purchase") rows /\
  Forall (fun e => key_of e = ("control", 0)) rows.
Proof.
  intro Hday.
  pose proof (simulate_day_rows _ _ _ _ _ _ Hday) as [Hlen Hrows].
  cbn [scenario events_low events_high] in Hlen.
  split; [lia|].
  apply simulate_day_inv in Hday as (t & Hdraws & Hrange & Hpos & ->).
  destruct (draws_from_laws _ _ _ _ _ Hdraws Hrange)
    as (Hn & Hids & Hu & Hv & Hru & Hrv & Hr & _).
  pose proof (build_day_rows (fun _ => True) _ 0 "control" t Hids Hu Hv Hr
                ltac:(apply Forall_forall; auto)) as Hrel.
  split; apply Forall_forall; intros e Hin.
  - destruct (Forall2_In_r _ _ _ Hrel e Hin)
      as ([uid [u v]] & Hx & _ & _ & _ & Hlabel & _).
    apply in_combine_r in Hx.
    pose proof (in_combine_l _ _ _ _ Hx) as Hinu.
    pose proof (in_combine_r _ _ _ _ Hx) as Hinv.
    rewrite Forall_forall in Hru, Hrv.
    destruct (Hru u Hinu) as [_ Hu1]. destruct (Hrv v Hinv) as [_ Hv1].
    cbn [fst snd] in Hlabel. rewrite label_of_cases in Hlabel.
    change (p_click (scenario 5 1 1) "control") with 1%Q in Hlabel.
    change (p_purchase (scenario 5 1 1) "control") with 1%Q in Hlabel.
    apply Qltb_lt in Hu1, Hv1. rewrite Hu1, Hv1 in Hlabel. exact Hlabel.
  - rewrite Forall_forall in Hrows.
    destruct (Hrows e Hin) as (Hd & Hg & _).
    unfold key_of. now rewrite Hd, Hg.
Qed.

(** The run of the all-purchase scenario: five purchases of one group and
    day, aggregated into a single KPI row. *)
Lemma all_purchase_run (st : G) :
  exists data st',
    simulate (scenario 5 1 1) st = Some (data, st') /\
    length data = 5%nat /\
    Forall (fun e => event_type e = "purchase") data /\
    Forall (fun e => key_of e = ("control", 0)) data /\
    kpi_data data = Some [kpi_row_of ("control", 0) data].
Proof.
  destruct (simulate_total (scenario 5 1 1) st eq_refl)
    as (data & st' & Hrun).
  exists data, st'. split; [exact Hrun|].
  destruct (scenario_single_day _ _ _ _ _ _ Hrun) as (s1 & s2 & Hday).
  destruct (all_purchase_day s1 data s2 Hday) as (Hlen & Hlabels & Hkeys).
  split; [exact Hlen | split; [exact Hlabels | split; [exact Hkeys|]]].
  assert (Hne : data <> []) by (intros ->; discriminate Hlen).
  rewrite (kpi_data_rows data Hne), (groupby_single _ data Hne Hkeys).
  reflexivity.
Qed.

End AllPurchase.

(** ** What holds of the ratios on every table *)

Lemma Qsum_nonneg (l : list Q) :
  Forall (fun q => 0 <= q)%Q l -> (0 <= Qsum l)%Q.
Proof.
  induction 1 as [|q l Hq _ IH]; cbn [Qsum fold_right].
  - apply Qle_refl.
  - change (fold_right Qplus 0%Q l) with (Qsum l). lra.
Qed.

Lemma of_count_nonneg (n : nat) : (0 <= inject_Z (Z.of_nat n))%Q.
Proof.
  change 0%Q with (inject_Z 0). rewrite <- Zle_Qle. lia.
Qed.

Lemma clean_ratio_nonneg (a b : Q) :
  (0 <= a)%Q -> (0 <= b)%Q ->
  at_least (clean (fdiv (Fin a) (Fin b))) 0 /\
  at_least (clean (fmul (fdiv (Fin a) (Fin b)) (Fin 100))) 0.
Proof.
  intros Ha Hb. cbn [fdiv].
  destruct (Qeq_bool b 0) eqn:Eb.
  - destruct (Qeq_bool a 0); [split; apply Qle_refl|].
    destruct (Qltb a 0); split; apply Qle_refl.
  - apply Qeq_bool_neq in Eb.
    assert (Hpos : (0 < b)%Q).
    { apply Qle_lt_or_eq in Hb as [Hlt|Heq]; [exact Hlt|].
      exfalso. apply Eb. symmetry. exact Heq. }
    assert (Hdiv : (0 <= a / b)%Q).
    { apply Qle_shift_div_l; [exact Hpos | lra]. }
    cbn [fmul clean at_least]. split; [exact Hdiv | lra].
Qed.

(** Whatever the labels, the three KPIs of a table with non-negative
    revenues are finite and non-negative. *)
Lemma kpis_nonnegative (data : list event) :
  data <> [] ->
  Forall (fun e => 0 <= revenue e)%Q data ->
  exists kpi,
    kpi_data data = Some kpi /\
    Forall (fun r =>
              exists cvr aov ctr,
                get_num "CVR" r = Some cvr /\
                get_num "AOV" r = Some aov /\
                get_num "CTR" r = Some ctr /\
                at_least cvr 0 /\ at_least aov 0 /\ at_least ctr 0) kpi.
Proof.
  intros Hdata Hrev.
  exists (map (fun kx => kpi_row_of (fst kx) (snd kx)) (groupby data)).
  split; [apply kpi_data_rows, Hdata|].
  apply Forall_forall. intros r Hin.
  apply in_map_iff in Hin as ([k x] & <- & Hin).
  apply groupby_In in Hin as [_ ->]. cbn [fst snd].
  set (x := rows_of k data).
  assert (Hsum : (0 <= Qsum (map revenue x))%Q).
  { apply Qsum_nonneg, Forall_map, Forall_forall. intros e He.
    apply filter_In in He as [He _].
    rewrite Forall_forall in Hrev. auto. }
  exists (clean (fmul (fdiv (of_count (count_type "purchase" x))
                         (of_count (count_type "view" x))) (Fin 100))),
    (clean (fdiv (Fin (Qsum (map revenue x)))
              (of_count (count_type "purchase" x)))),
    (clean (fmul (fdiv (of_count (count_type "click" x))
                    (of_count (count_type "view" x))) (Fin 100))).
  do 3 (split; [reflexivity|]).
  unfold of_count.
  split; [|split].
  - apply clean_ratio_nonneg; apply of_count_nonneg.
  - apply clean_ratio_nonneg; [exact Hsum | apply of_count_nonneg].
  - apply clean_ratio_nonneg; apply of_count_nonneg.
Qed.

(** * The claims *)

(** C7. On a valid configuration whose revenue ranges are positive (as all
    ranges of the notebook are), the simulation returns an Event table in
    which every row is labelled [view], [click] or [purchase], has a
    strictly positive revenue exactly when it is a [purchase], and has
    revenue exactly 0 otherwise. *)
Theorem event_labels_and_revenue {G} `{GeneratorLaws G} (p : params) (st : G) :
  valid_params p = true ->
  positive_revenue p = true ->
  exists data st',
    simulate p st = Some (data, st') /\
    Forall (fun e =>
              (event_type e = "view" \/ event_type e = "click"
               \/ event_type e = "purchase") /\
              ((0 < revenue e)%Q <-> event_type e = "purchase") /\
              (event_type e <> "purchase" -> revenue e = 0%Q)) data.
Proof.
  intros Hvalid Hpositive.
  destruct (simulate_total p st Hvalid) as (data & st' & Hrun).
  exists data, st'. split; [exact Hrun|].
  eapply Forall_impl; [|exact (simulate_rows p st data st' Hrun)].
  intros e (Hin & Hlabel & Hpurchase & Hother).
  apply loop_pairs_In in Hin as [_ Hg].
  unfold positive_revenue in Hpositive.
  rewrite forallb_forall in Hpositive. specialize (Hpositive _ Hg).
  apply andb_true_iff in Hpositive as [Hlo Hhi].
  apply Qltb_lt in Hlo, Hhi.
  split; [exact Hlabel | split; [|exact Hother]].
  split.
  - intro Hrev. destruct (string_dec (event_type e) "purchase") as [E|E];
      [exact E|].
    rewrite (Hother E) in Hrev. discriminate Hrev.
  - intro E. destruct (Hpurchase E Hhi) as [Hge _].
    eapply Qlt_le_trans; eassumption.
Qed.

Lemma event_labels_and_revenue_witness :
  exists data st',
    simulate reference (play []) = Some (data, st') /\
    Forall (fun e =>
              (event_type e = "view" \/ event_type e = "click"
               \/ event_type e = "purchase") /\
              ((0 < revenue e)%Q <-> event_type e = "purchase") /\
              (event_type e <> "purchase" -> revenue e = 0%Q)) data.
Proof.
  apply (event_labels_and_revenue reference (play [])); reflexivity.
Defined.

(** C10. In the reference configuration [revenue_global] is set, so both
    groups draw purchase revenue from the global range [20, 200): the
    range chosen for any group is (20, 200), every purchase of the
    simulated table has its revenue in that interval, and replacing the
    per-group ranges (200, 300) and (20, 100) by any others changes
    neither the Event table nor the generator state. *)
Theorem reference_revenue_is_global {G} `{GeneratorLaws G} (st : G) :
  (forall g, r_revenue reference g = (20, 200)%Q) /\
  (exists data st',
     simulate reference st = Some (data, st') /\
     Forall (fun e => event_type e = "purchase" ->
                      (20 <= revenue e /\ revenue e < 200)%Q) data) /\
  (forall rc rt,
     simulate (with_group_ranges reference rc rt) st = simulate reference st).
Proof.
  split; [|split].
  - intro g. unfold r_revenue. reflexivity.
  - destruct (simulate_total reference st eq_refl) as (data & st' & Hrun).
    exists data, st'. split; [exact Hrun|].
    eapply Forall_impl; [|exact (simulate_rows _ st data st' Hrun)].
    intros e (_ & _ & Hpurchase & _) E.
    destruct (Hpurchase E eq_refl) as [Hlow Hhigh].
    split; [exact Hlow|].
    eapply Qle_lt_trans; [exact Hhigh | apply uniform_max_global].
  - intros rc rt. apply simulate_group_ranges. reflexivity.
Qed.

Lemma reference_revenue_is_global_witness :
  (forall g, r_revenue reference g = (20, 200)%Q) /\
  (exists data st',
     simulate reference (play []) = Some (data, st') /\
     Forall (fun e => event_type e = "purchase" ->
                      (20 <= revenue e /\ revenue e < 200)%Q) data) /\
  (forall rc rt,
     simulate (with_group_ranges reference rc rt) (play [])
     = simulate reference (play [])).
Proof.
  exact (reference_revenue_is_global (play [])).
Defined.

(** C2. In the frame of one (date, group) run of the loop body, row [i] is
    labelled [purchase] if and only if the [i]-th click draw is below the
    click probability of the group and the [i]-th draw of the second,
    separately drawn vector is below its purchase probability; so every
    [purchase] row has a click draw below the click probability.  Counted
    over all pairs of draws on a grid of [N] equally likely unit samples,
    with probabilities [a/N] and [b/N], exactly [a * b] of the [N * N]
    pairs give a purchase: the share of views that purchase is the product
    of the two probabilities. *)
Theorem purchase_iff_both_draws {G} `{GeneratorLaws G} (p : params)
  (d : timestamp) (g : string) (st : G) (rows : list event) (st' : G) :
  simulate_day p d g st = Some (rows, st') ->
  (exists t,
     draws_from p g st t st' /\
     length (d_click t) = length rows /\
     length (d_purchase t) = length rows /\
     forall i e,
       nth_error rows i = Some e ->
       exists u v,
         nth_error (d_click t) i = Some u /\
         nth_error (d_purchase t) i = Some v /\
         (event_type e = "purchase" <->
          (u < p_click p g /\ v < p_purchase p g)%Q) /\
         (event_type e = "purchase" -> (u < p_click p g)%Q)) /\
  (forall (N : positive) (a b : nat),
     (a <= Pos.to_nat N)%nat ->
     (b <= Pos.to_nat N)%nat ->
     purchase_pairs N (Z.of_nat a # N) (Z.of_nat b # N) = (a * b)%nat).
Proof.
  intro Hrun. split; [|apply purchase_pairs_product].
  apply simulate_day_inv in Hrun as (t & Hdraws & Hrange & Hpos & ->).
  destruct (draws_from_laws p g st t st' Hdraws Hrange)
    as (Hn & Hids & Hu & Hv & _ & _ & Hr & _).
  pose proof (build_day_rows (fun _ => True) p d g t Hids Hu Hv Hr
                ltac:(apply Forall_forall; auto)) as Hrows.
  pose proof (Forall2_length_eq _ _ _ Hrows) as Hlen.
  rewrite !length_combine, Hids, Hu, Hv, !Nat.min_id in Hlen.
  exists t. split; [exact Hdraws|].
  split; [congruence | split; [congruence|]].
  intros i e He.
  destruct (Forall2_nth_error_r _ _ _ Hrows i e He)
    as ([uid [u v]] & Hx & _ & _ & _ & Hlabel & _).
  apply nth_error_combine_inv in Hx as [_ Hx].
  apply nth_error_combine_inv in Hx as [Hiu Hiv].
  exists u, v. split; [exact Hiu | split; [exact Hiv|]].
  cbn [fst snd] in Hlabel. rewrite label_of_cases in Hlabel.
  rewrite Hlabel.
  destruct (Qltb u (p_click p g)) eqn:Eu, (Qltb v (p_purchase p g)) eqn:Ev;
    try apply Qltb_lt in Eu; try apply Qltb_lt in Ev;
    try apply Qltb_ge in Eu; try apply Qltb_ge in Ev;
    (split; [split; [intro E; try discriminate E; auto
                    | intros [Hu' Hv']; try reflexivity; exfalso;
                      first [ exact (Qlt_not_le _ _ Hu' Eu)
                            | exact (Qlt_not_le _ _ Hv' Ev) ]]
            | intro E; try discriminate E; auto]).
Qed.

Lemma purchase_iff_both_draws_witness :
  exists rows st',
    simulate_day (scenario 5 (1 # 2) (1 # 2)) 0 "control"
      (play (tape_of [1 # 4; 1 # 4; 1 # 4; 1 # 4; 3 # 4]
                     [3 # 4; 3 # 4; 1 # 4; 1 # 4; 1 # 4]
                     [0; 1 # 2]))%Q
    = Some (rows, st') /\
    map event_type rows = ["click"; "click"; "purchase"; "purchase"; "view"] /\
    (exists t,
       draws_from (scenario 5 (1 # 2) (1 # 2)) "control"
         (play (tape_of [1 # 4; 1 # 4; 1 # 4; 1 # 4; 3 # 4]
                        [3 # 4; 3 # 4; 1 # 4; 1 # 4; 1 # 4]
                        [0; 1 # 2]))%Q t st' /\
       length (d_click t) = length rows /\
       length (d_purchase t) = length rows /\
       forall i e,
         nth_error rows i = Some e ->
         exists u v,
           nth_error (d_click t) i = Some u /\
           nth_error (d_purchase t) i = Some v /\
           (event_type e = "purchase" <->
            (u < p_click (scenario 5 (1 # 2) (1 # 2)) "control"
             /\ v < p_purchase (scenario 5 (1 # 2) (1 # 2)) "control")%Q) /\
           (event_type e = "purchase" ->
            (u < p_click (scenario 5 (1 # 2) (1 # 2)) "control")%Q)) /\
    purchase_pairs 4 (1 # 4) (2 # 4) = 2%nat.
Proof.
  eexists. eexists.
  split; [vm_compute; reflexivity|].
  split; [reflexivity|].
  split.
  - refine (proj1 (purchase_iff_both_draws _ 0 "control" _ _ _ _)).
    vm_compute. reflexivity.
  - refine (proj2 (purchase_iff_both_draws
                     (scenario 5 (1 # 2) (1 # 2)) 0 "control"
                     (play (tape_of [1 # 4; 1 # 4; 1 # 4; 1 # 4; 3 # 4]
                                    [3 # 4; 3 # 4; 1 # 4; 1 # 4; 1 # 4]
                                    [0; 1 # 2]))%Q _ _ _)
                  4%positive 1%nat 2%nat _ _).
    + vm_compute. reflexivity.
    + vm_compute. lia.
    + vm_compute. lia.
Defined.



(** C6. On a non-empty Event table the KPI table has exactly the columns
    group, date, views, clicks, purchases, revenue, CVR, AOV, CTR, and its
    rows are keyed by the (group, date) pairs of the table, each pair once.
    In the reference configuration (2 groups, 30 days, at least 150 events
    per group and day) that makes 60 rows. *)
Theorem kpi_one_row_per_group_date {G} `{GeneratorLaws G} (st : G) :
  (forall data,
     data <> [] ->
     exists kpi keys,
       kpi_data data = Some kpi /\
       Forall (fun r => map fst r = kpi_columns) kpi /\
       map row_key kpi = map Some keys /\
       NoDup keys /\
       (forall k, In k keys <-> exists e, In e data /\ key_of e = k)) /\
  (exists data st' kpi,
     simulate reference st = Some (data, st') /\
     kpi_data data = Some kpi /\
     length kpi = 60%nat).
Proof.
  split.
  - intros data Hdata.
    exists (map (fun kx => kpi_row_of (fst kx) (snd kx)) (groupby data)),
           (group_keys data).
    split; [apply kpi_data_rows, Hdata|].
    split; [|split; [|split]].
    + apply Forall_forall. intros r Hin.
      apply in_map_iff in Hin as (kx & <- & _). reflexivity.
    + unfold groupby. rewrite !map_map. apply map_ext.
      intros [g d]. reflexivity.
    + apply group_keys_NoDup.
    + apply group_keys_In.
  - destruct (simulate_total reference st eq_refl) as (data & st' & Hrun).
    pose proof (simulate_nonempty reference st data st' Hrun eq_refl eq_refl)
      as Hdata.
    exists data, st',
      (map (fun kx => kpi_row_of (fst kx) (snd kx)) (groupby data)).
    split; [exact Hrun|].
    split; [apply kpi_data_rows, Hdata|].
    rewrite length_map. unfold groupby. rewrite length_map.
    rewrite (simulate_group_count reference st data st' Hrun eq_refl).
    + reflexivity.
    + cbn [reference groups].
      repeat constructor; cbn; intuition discriminate.
Qed.

Lemma kpi_one_row_per_group_date_witness :
  (exists kpi keys,
     kpi_data [ Build_event 1000 0 "purchase" "control" 50;
                Build_event 1001 0 "view" "treatment" 0;
                Build_event 1002 0 "click" "control" 0 ] = Some kpi /\
     Forall (fun r => map fst r = kpi_columns) kpi /\
     map row_key kpi = map Some keys /\
     NoDup keys /\
     (forall k,
        In k keys <->
        exists e,
          In e [ Build_event 1000 0 "purchase" "control" 50;
                 Build_event 1001 0 "view" "treatment" 0;
                 Build_event 1002 0 "click" "control" 0 ]
          /\ key_of e = k)) /\
  (exists data st' kpi,
     simulate reference (play []) = Some (data, st') /\
     kpi_data data = Some kpi /\
     length kpi = 60%nat).
Proof.
  split.
  - apply (proj1 (kpi_one_row_per_group_date (play []))). discriminate.
  - exact (proj2 (kpi_one_row_per_group_date (play []))).
Defined.

(** C8. The tables depend on the seed and the configuration only: whatever
    state the generator was in before, the notebook produces the same
    outcome, and for a 32-bit seed and a valid configuration that draws at
    least one event per day this outcome is one Event table and one KPI
    table. *)
Theorem same_seed_same_tables {G} `{GeneratorLaws G} (seed : Z) (p : params) :
  (forall st1 st2 : G, run_notebook seed p st1 = run_notebook seed p st2) /\
  (0 <= seed < 2 ^ 32 ->
   valid_params p = true ->
   0 < events_low p ->
   exists data kpi (st' : G),
     forall st, run_notebook seed p st = Some ((data, kpi), st')).
Proof.
  split; [reflexivity|].
  intros Hseed Hvalid Hlow.
  destruct (simulate_total p (gen_seed seed) Hvalid) as (data & st' & Hrun).
  pose proof (simulate_nonempty p _ data st' Hrun Hvalid Hlow) as Hdata.
  exists data, (map (fun kx => kpi_row_of (fst kx) (snd kx)) (groupby data)),
    st'.
  intro st. unfold run_notebook, bind, np_seed.
  assert (Hs : (0 <=? seed) && (seed <? 2 ^ 32) = true).
  { apply andb_true_iff. split; [apply Z.leb_le | apply Z.ltb_lt]; lia. }
  rewrite Hs, Hrun. unfold lift_option.
  rewrite (kpi_data_rows data Hdata). reflexivity.
Qed.

Lemma same_seed_same_tables_witness :
  (forall st1 st2 : scripted,
     run_notebook 42 reference st1 = run_notebook 42 reference st2) /\
  (exists data kpi (st' : scripted),
     forall st, run_notebook 42 reference st = Some ((data, kpi), st')).
Proof.
  split.
  - exact (proj1 (same_seed_same_tables 42 reference)).
  - apply (proj2 (same_seed_same_tables 42 reference)).
    + split; [discriminate | reflexivity].
    + reflexivity.
    + reflexivity.
Defined.

(** C9. On a valid configuration that draws at least one event per day,
    every row of the KPI table has [views + clicks + purchases] equal to
    the number of rows of the Event table with its (group, date) pair,
    counted on the Event table itself; that number is not zero, and every
    row of the Event table has the KPI row of its pair. *)
Theorem counts_partition_rows {G} `{GeneratorLaws G} (p : params) (st : G) :
  valid_params p = true ->
  0 < events_low p ->
  exists data st' kpi,
    simulate p st = Some (data, st') /\
    kpi_data data = Some kpi /\
    Forall (fun e => exists r,
                In r kpi /\ row_key r = Some (group e, date e)) data /\
    Forall (fun r =>
              exists g d views clicks purchases,
                row_key r = Some (g, d) /\
                get_num "views" r = Some (of_count views) /\
                get_num "clicks" r = Some (of_count clicks) /\
                get_num "purchases" r = Some (of_count purchases) /\
                (0 < views + clicks + purchases)%nat /\
                (views + clicks + purchases)%nat
                = length (filter (fun e => String.eqb (group e) g
                                           && (date e =? d)) data)) kpi.
Proof.
  intros Hvalid Hlow.
  destruct (simulate_total p st Hvalid) as (data & st' & Hrun).
  pose proof (simulate_nonempty p st data st' Hrun Hvalid Hlow) as Hdata.
  exists data, st',
    (map (fun kx => kpi_row_of (fst kx) (snd kx)) (groupby data)).
  split; [exact Hrun|].
  split; [apply kpi_data_rows, Hdata|].
  split.
  - apply Forall_forall. intros e He.
    exists (kpi_row_of (key_of e) (rows_of (key_of e) data)).
    split; [|reflexivity].
    apply in_map_iff.
    exists (key_of e, rows_of (key_of e) data). split; [reflexivity|].
    unfold groupby. apply in_map_iff. exists (key_of e).
    split; [reflexivity|]. apply group_keys_In. eauto.
  - apply Forall_forall. intros r Hin.
    apply in_map_iff in Hin as ([[g d] x] & <- & Hin).
    apply groupby_In in Hin as [Hkey ->]. cbn [fst snd].
    exists g, d, (count_type "view" (rows_of (g, d) data)),
      (count_type "click" (rows_of (g, d) data)),
      (count_type "purchase" (rows_of (g, d) data)).
    do 4 (split; [reflexivity|]).
    assert (Htotal : (count_type "view" (rows_of (g, d) data)
                      + count_type "click" (rows_of (g, d) data)
                      + count_type "purchase" (rows_of (g, d) data)
                      = length (rows_of (g, d) data))%nat).
    { apply count_types_total.
      apply Forall_forall. intros e He.
      apply filter_In in He as [He _].
      pose proof (simulate_rows p st data st' Hrun) as Hrows.
      rewrite Forall_forall in Hrows.
      destruct (Hrows e He) as (_ & Hlabel & _). exact Hlabel. }
    rewrite Htotal. split; [|reflexivity].
    apply group_keys_In in Hkey as (e & He & Ek).
    assert (Hin : In e (rows_of (g, d) data)).
    { apply filter_In. split; [exact He|]. apply key_eqb_eq, Ek. }
    destruct (rows_of (g, d) data); [destruct Hin | cbn [length]; lia].
Qed.

Lemma counts_partition_rows_witness :
  exists data st' kpi,
    simulate reference (play []) = Some (data, st') /\
    kpi_data data = Some kpi /\
    Forall (fun e => exists r,
                In r kpi /\ row_key r = Some (group e, date e)) data /\
    Forall (fun r =>
              exists g d views clicks purchases,
                row_key r = Some (g, d) /\
                get_num "views" r = Some (of_count views) /\
                get_num "clicks" r = Some (of_count clicks) /\
                get_num "purchases" r = Some (of_count purchases) /\
                (0 < views + clicks + purchases)%nat /\
                (views + clicks + purchases)%nat
                = length (filter (fun e => String.eqb (group e) g
                                           && (date e =? d)) data)) kpi.
Proof.
  apply (counts_partition_rows reference (play [])); reflexivity.
Defined.

(** C3.  The code at a failing input.  A day of five events with click
    and purchase probabilities 1/2 whose draws leave two clicks, two
    purchases and one view: the KPI row has views = 1, so CVR = 2/1*100 and
    CTR = 2/1*100 are both 200, outside [0, 100]. *)
Theorem ratios_exceed_100 :
  exists data st' r,
    simulate (scenario 5 (1 # 2) (1 # 2))
      (play (tape_of [1 # 4; 1 # 4; 1 # 4; 1 # 4; 3 # 4]
                     [3 # 4; 3 # 4; 1 # 4; 1 # 4; 1 # 4]
                     [0; 1 # 2]))%Q
    = Some (data, st') /\
    map event_type data
    = ["click"; "click"; "purchase"; "purchase"; "view"] /\
    kpi_data data = Some [r] /\
    get_num "views" r = Some (Fin 1) /\
    get_num "clicks" r = Some (Fin 2) /\
    get_num "purchases" r = Some (Fin 2) /\
    get_num "CVR" r = Some (Fin 200) /\
    get_num "CTR" r = Some (Fin 200) /\
    ~ in_range (Fin 200) 0 100.
Proof.
  eexists. eexists. eexists.
  split; [vm_compute; reflexivity|].
  split; [reflexivity|].
  split; [vm_compute; reflexivity|].
  do 5 (split; [reflexivity|]).
  cbn [in_range]. intros [_ Hle]. revert Hle. apply Qlt_not_le. reflexivity.
Qed.

(** C4.  The code at the scenario of the claim.  With one day, the single
    group [control], both probabilities 1 and five events, whatever the
    generator draws, all five rows end as [purchase]; no row is left
    labelled [view], so the KPI row has views = 0 and clicks = 0, the two
    ratios over [views] are divisions by zero and come out as CVR = 0 and
    CTR = 0 (not 100); AOV is the sum of the five revenues over 5. *)
Theorem all_purchase_scenario_kpis {G} `{GeneratorLaws G} (st : G) :
  exists data st' r,
    simulate (scenario 5 1 1) st = Some (data, st') /\
    length data = 5%nat /\
    Forall (fun e => event_type e = "purchase") data /\
    kpi_data data = Some [r] /\
    get_num "views" r = Some (Fin 0) /\
    get_num "clicks" r = Some (Fin 0) /\
    get_num "purchases" r = Some (Fin 5) /\
    get_num "CVR" r = Some (Fin 0) /\
    get_num "CTR" r = Some (Fin 0) /\
    exists aov,
      get_num "AOV" r = Some (Fin aov) /\
      (aov == Qsum (map revenue data) / 5)%Q.
Proof.
  destruct (all_purchase_run st)
    as (data & st' & Hrun & Hlen & Hlabels & _ & Hkpi).
  destruct (count_all_purchase data Hlabels) as (Hv & Hc & Hp).
  rewrite Hlen in Hp.
  exists data, st', (kpi_row_of ("control", 0) data).
  do 4 (split; [assumption|]).
  unfold kpi_row_of, get_num. rewrite Hv, Hc, Hp.
  cbn [lookup String.eqb Ascii.eqb Bool.eqb].
  do 5 (split; [reflexivity|]).
  exists (Qsum (map revenue data) / inject_Z (Z.of_nat 5))%Q.
  split; reflexivity.
Qed.

Lemma all_purchase_scenario_kpis_witness :
  exists data st' r,
    simulate (scenario 5 1 1) (play []) = Some (data, st') /\
    length data = 5%nat /\
    Forall (fun e => event_type e = "purchase") data /\
    kpi_data data = Some [r] /\
    get_num "views" r = Some (Fin 0) /\
    get_num "clicks" r = Some (Fin 0) /\
    get_num "purchases" r = Some (Fin 5) /\
    get_num "CVR" r = Some (Fin 0) /\
    get_num "CTR" r = Some (Fin 0) /\
    exists aov,
      get_num "AOV" r = Some (Fin aov) /\
      (aov == Qsum (map revenue data) / 5)%Q.
Proof.
  exact (all_purchase_scenario_kpis (play [])).
Defined.

(** C5.  The code at a failing input.  In the all-purchase scenario the
    Event table has five rows of group [control], all of which started as
    views, yet the [views] counts of the group sum to 0: a promoted row is
    not counted as a view.  The contingency line of the group, computed
    as [views.sum() - purchases.sum()], is 5 purchases and -5
    non-purchases. *)
Theorem views_exclude_promoted_rows {G} `{GeneratorLaws G} (st : G) :
  exists data st' kpi,
    simulate (scenario 5 1 1) st = Some (data, st') /\
    kpi_data data = Some kpi /\
    length (filter (fun e => String.eqb (group e) "control") data) = 5%nat /\
    column_sum "views" (group_data "control" kpi) = Some (Fin 0) /\
    cr_line "control" kpi = Some (Fin 5, Fin (-5)).
Proof.
  destruct (all_purchase_run st)
    as (data & st' & Hrun & Hlen & Hlabels & Hkeys & Hkpi).
  destruct (count_all_purchase data Hlabels) as (Hv & Hc & Hp).
  rewrite Hlen in Hp.
  exists data, st', [kpi_row_of ("control", 0) data].
  split; [exact Hrun | split; [exact Hkpi|]].
  split.
  - rewrite <- Hlen. f_equal.
    clear - Hkeys. induction Hkeys as [|e x He _ IH]; [reflexivity|].
    cbn [filter]. unfold key_of in He. injection He as Hg _.
    rewrite Hg. cbn [String.eqb Ascii.eqb Bool.eqb]. now rewrite IH.
  - unfold cr_line, column_sum, group_data, kpi_row_of.
    rewrite Hv, Hc, Hp. split; reflexivity.
Qed.

Lemma views_exclude_promoted_rows_witness :
  exists data st' kpi,
    simulate (scenario 5 1 1) (play []) = Some (data, st') /\
    kpi_data data = Some kpi /\
    length (filter (fun e => String.eqb (group e) "control") data) = 5%nat /\
    column_sum "views" (group_data "control" kpi) = Some (Fin 0) /\
    cr_line "control" kpi = Some (Fin 5, Fin (-5)).
Proof.
  exact (views_exclude_promoted_rows (play [])).
Defined.

(** * Further properties of the cells *)

(** ** The clean-up on any frame *)

Lemma lookup_map_cells (g : cell -> cell) (name : string) (r : row) :
  lookup name (map (fun nc : string * cell => (fst nc, g (snd nc))) r)
  = option_map g (lookup name r).
Proof.
  induction r as [|[n c] r IH]; [reflexivity|].
  cbn [map lookup fst snd]. destruct (String.eqb n name); [reflexivity|].
  exact IH.
Qed.

Lemma clean_cell_idempotent (c : cell) :
  fillna_0 (replace_inf (fillna_0 (replace_inf c))) = fillna_0 (replace_inf c).
Proof. destruct c as [s|d|[q| | |]]; reflexivity. Qed.

(** X9. The two clean-up calls, on any frame: running them again changes
    nothing, the column labels of every row are kept, every cell is the
    clean-up of the cell it was, and no number left in the frame is an
    infinity or [nan]. *)
Theorem cleanup_is_idempotent_and_finite (f : frame) :
  handle_div_by_zero (handle_div_by_zero f) = handle_div_by_zero f /\
  map (map fst) (handle_div_by_zero f) = map (map fst) f /\
  Forall2 (fun r r' =>
             forall name,
               lookup name r'
               = option_map (fun c => fillna_0 (replace_inf c))
                   (lookup name r))
    f (handle_div_by_zero f) /\
  Forall (fun r' =>
            forall name x,
              lookup name r' = Some (CNum x) -> exists q, x = Fin q)
    (handle_div_by_zero f).
Proof.
  unfold handle_div_by_zero, map_cells.
  split; [|split; [|split]].
  - rewrite !map_map. apply map_ext. intro r.
    rewrite !map_map. apply map_ext. intros [n c]. cbn [fst snd].
    now rewrite clean_cell_idempotent.
  - rewrite !map_map. apply map_ext. intro r.
    rewrite !map_map. apply map_ext. intros [n c]. reflexivity.
  - induction f as [|r f IH]; cbn [map]; constructor; [|exact IH].
    intro name. rewrite !lookup_map_cells.
    destruct (lookup name r); reflexivity.
  - apply Forall_forall. intros r' Hin name x Hx.
    rewrite map_map in Hin. apply in_map_iff in Hin as (r & <- & _).
    rewrite !lookup_map_cells in Hx.
    destruct (lookup name r) as [[s|d|[q| | |]]|]; cbn in Hx;
      try discriminate Hx; injection Hx as <-; eauto.
Qed.

(** ** Ratios over non-zero denominators *)

Lemma of_count_nonzero (n : nat) :
  n <> 0%nat -> Qeq_bool (inject_Z (Z.of_nat n)) 0 = false.
Proof.
  intro Hn. destruct (Qeq_bool (inject_Z (Z.of_nat n)) 0) eqn:E;
    [|reflexivity].
  apply Qeq_bool_iff in E. unfold Qeq in E. cbn in E. lia.
Qed.

(** X10. On a non-empty Event table, a KPI row whose [views] count is not
    0 has CVR = purchases / views * 100 and CTR = clicks / views * 100, and
    a row whose [purchases] count is not 0 has AOV = revenue / purchases:
    the clean-up leaves the ratios over non-zero denominators as they
    are. *)
Theorem ratios_when_denominators_nonzero (data : list event) :
  data <> [] ->
  exists kpi,
    kpi_data data = Some kpi /\
    Forall (fun r =>
              exists views clicks purchases rev cvr aov ctr,
                get_num "views" r = Some (of_count views) /\
                get_num "clicks" r = Some (of_count clicks) /\
                get_num "purchases" r = Some (of_count purchases) /\
                get_num "revenue" r = Some (Fin rev) /\
                get_num "CVR" r = Some cvr /\
                get_num "AOV" r = Some aov /\
                get_num "CTR" r = Some ctr /\
                (views <> 0%nat ->
                 is_value cvr (inject_Z (Z.of_nat purchases)
                               / inject_Z (Z.of_nat views) * 100) /\
                 is_value ctr (inject_Z (Z.of_nat clicks)
                               / inject_Z (Z.of_nat views) * 100)) /\
                (purchases <> 0%nat ->
                 is_value aov (rev / inject_Z (Z.of_nat purchases)))) kpi.
Proof.
  intro Hdata.
  exists (map (fun kx => kpi_row_of (fst kx) (snd kx)) (groupby data)).
  split; [apply kpi_data_rows, Hdata|].
  apply Forall_forall. intros r Hin.
  apply in_map_iff in Hin as ([k x] & <- & _). cbn [fst snd].
  exists (count_type "view" x), (count_type "click" x),
    (count_type "purchase" x), (Qsum (map revenue x)).
  do 3 eexists.
  do 7 (split; [reflexivity|]).
  unfold of_count. cbn [fdiv].
  split.
  - intro Hv. rewrite (of_count_nonzero _ Hv).
    cbn [fmul clean is_value]. split; reflexivity.
  - intro Hp. rewrite (of_count_nonzero _ Hp).
    cbn [clean is_value]. reflexivity.
Qed.

Lemma ratios_when_denominators_nonzero_witness :
  exists kpi,
    kpi_data [ Build_event 1000 0 "purchase" "control" 50;
               Build_event 1001 0 "view" "control" 0;
               Build_event 1002 0 "click" "control" 0;
               Build_event 1003 0 "view" "control" 0 ] = Some kpi /\
    Forall (fun r =>
              exists views clicks purchases rev cvr aov ctr,
                get_num "views" r = Some (of_count views) /\
                get_num "clicks" r = Some (of_count clicks) /\
                get_num "purchases" r = Some (of_count purchases) /\
                get_num "revenue" r = Some (Fin rev) /\
                get_num "CVR" r = Some cvr /\
                get_num "AOV" r = Some aov /\
                get_num "CTR" r = Some ctr /\
                (views <> 0%nat ->
                 is_value cvr (inject_Z (Z.of_nat purchases)
                               / inject_Z (Z.of_nat views) * 100) /\
                 is_value ctr (inject_Z (Z.of_nat clicks)
                               / inject_Z (Z.of_nat views) * 100)) /\
                (purchases <> 0%nat ->
                 is_value aov (rev / inject_Z (Z.of_nat purchases)))) kpi.
Proof.
  apply (ratios_when_denominators_nonzero
           [ Build_event 1000 0 "purchase" "control" 50;
             Build_event 1001 0 "view" "control" 0;
             Build_event 1002 0 "click" "control" 0;
             Build_event 1003 0 "view" "control" 0 ]).
  discriminate.
Defined.

(** ** More on the rows of a day *)

Section MoreRows.

Context {G : Type} `{GeneratorLaws G}.

(** The rows of a day against the draws they were built from, with what
    the generator guarantees of the draws. *)
Lemma simulate_day_draws (p : params) (d : timestamp) (g : string)
  st rows st' :
  simulate_day p d g st = Some (rows, st') ->
  exists t,
    Forall2 (row_of_draws (fun _ => True) (p_click p g) (p_purchase p g) d g)
      (combine (d_user_ids t) (combine (d_click t) (d_purchase t))) rows /\
    Forall (fun x => 0 <= x /\ x < 1)%Q (d_click t) /\
    Forall (fun x => 0 <= x /\ x < 1)%Q (d_purchase t) /\
    (users p <> [] -> Forall (fun x => In x (users p)) (d_user_ids t)).
Proof.
  intro Hrun.
  apply simulate_day_inv in Hrun as (t & Hdraws & Hrange & Hpos & ->).
  destruct (draws_from_laws p g st t st' Hdraws Hrange)
    as (Hn & Hids & Hu & Hv & Hru & Hrv & Hr & _).
  exists t. split; [|split; [exact Hru | split; [exact Hrv|]]].
  - apply build_day_rows; try assumption. apply Forall_forall. auto.
  - intro Hpool.
    destruct Hdraws as (st1 & st2 & _ & _ & _ & Hchoice & _).
    pose proof (choice_member (users p) (Z.to_nat (d_num_views t)) st1 Hpool)
      as Hmem.
    now rewrite Hchoice in Hmem.
Qed.



(** A property of the rows of every day is a property of the table. *)
Lemma simulate_Forall (P : event -> Prop) (p : params) st data st' :
  (forall d g s1 rows s2,
     In (d, g) (loop_pairs p) ->
     simulate_day p d g s1 = Some (rows, s2) -> Forall P rows) ->
  simulate p st = Some (data, st') ->
  Forall P data.
Proof.
  intros Hday Hrun.
  apply simulate_inv in Hrun as (frames & -> & _ & Hframes).
  apply Forall_concat, Forall_forall. intros rows Hin.
  destruct (Forall2_In_r _ _ _ Hframes rows Hin)
    as ([d g] & Hdg & s1 & s2 & Hrows).
  exact (Hday d g s1 rows s2 Hdg Hrows).
Qed.

End MoreRows.

Lemma users_range (p : params) (x : Z) :
  In x (users p) <-> 1000 <= x < 1000 + Z.of_nat (num_users p).
Proof.
  unfold users. rewrite in_map_iff. split.
  - intros (i & <- & Hin). apply in_seq in Hin. lia.
  - intro Hx. exists (Z.to_nat (x - 1000)). split; [lia|].
    apply in_seq. lia.
Qed.

Lemma dates_range (p : params) (d : timestamp) :
  In d (dates p) <-> 0 <= d < Z.of_nat (num_days p).
Proof.
  unfold dates. rewrite in_map_iff. split.
  - intros (i & <- & Hin). apply in_seq in Hin. lia.
  - intro Hd. exists (Z.to_nat d). split; [lia|]. apply in_seq. lia.
Qed.

Lemma valid_params_inv (p : params) :
  valid_params p = true <->
  (1 <= num_days p)%nat /\ groups p <> [] /\ 0 <= events_low p
  /\ events_low p < events_high p /\ (1 <= num_users p)%nat
  /\ events_high p <= 2 ^ 63.
Proof.
  unfold valid_params.
  rewrite !andb_true_iff, negb_true_iff, !Nat.leb_le, Nat.eqb_neq,
    !Z.leb_le, Z.ltb_lt.
  assert (Hg : length (groups p) <> 0%nat <-> groups p <> []).
  { destruct (groups p); cbn; split; intro; try congruence; discriminate. }
  rewrite Hg. tauto.
Qed.

(** X1. On a valid configuration every row of the Event table has a user
    id of the pool (1000 up to 1000 + num_users, exclusive), a date among
    the [num_days] simulated days and one of the configured groups. *)
Theorem rows_within_configuration {G} `{GeneratorLaws G} (p : params)
  (st : G) :
  valid_params p = true ->
  exists data st',
    simulate p st = Some (data, st') /\
    Forall (fun e =>
              1000 <= user_id e < 1000 + Z.of_nat (num_users p) /\
              0 <= date e < Z.of_nat (num_days p) /\
              In (group e) (groups p)) data.
Proof.
  intro Hvalid.
  destruct (simulate_total p st Hvalid) as (data & st' & Hrun).
  exists data, st'. split; [exact Hrun|].
  apply valid_params_inv in Hvalid as (_ & _ & _ & _ & Husers & _).
  assert (Hpool : users p <> []).
  { unfold users. destruct (num_users p); [lia | discriminate]. }
  apply (simulate_Forall _ p st data st'); [|exact Hrun].
  intros d g s1 rows s2 Hdg Hday.
  apply loop_pairs_In in Hdg as [Hd Hg]. apply dates_range in Hd.
  pose proof (simulate_day_rows p d g s1 rows s2 Hday) as [_ Hkeys].
  apply simulate_day_draws in Hday as (t & Hrows & _ & _ & Hids).
  specialize (Hids Hpool). rewrite Forall_forall in Hids, Hkeys.
  apply Forall_forall. intros e Hin.
  destruct (Hkeys e Hin) as (-> & -> & _).
  destruct (Forall2_In_r _ _ _ Hrows e Hin) as ([uid uv] & Hx & Hid & _).
  apply in_combine_l in Hx. cbn [fst] in Hid. rewrite Hid.
  split; [apply users_range, Hids, Hx | split; assumption].
Qed.

Lemma rows_within_configuration_witness :
  exists data st',
    simulate reference (play []) = Some (data, st') /\
    Forall (fun e =>
              1000 <= user_id e < 1000 + Z.of_nat (num_users reference) /\
              0 <= date e < Z.of_nat (num_days reference) /\
              In (group e) (groups reference)) data.
Proof.
  apply (rows_within_configuration reference (play [])). reflexivity.
Defined.



(** ** Events per day and group *)

Lemma rows_of_all (k : key) (x : list event) :
  Forall (fun e => key_of e = k) x -> rows_of k x = x.
Proof.
  unfold rows_of. induction 1 as [|e x He _ IH]; [reflexivity|].
  cbn [filter]. rewrite He, key_eqb_refl. now rewrite IH.
Qed.

Lemma rows_of_none (k k' : key) (x : list event) :
  k <> k' -> Forall (fun e => key_of e = k') x -> rows_of k x = [].
Proof.
  intro Hne. unfold rows_of. induction 1 as [|e x He _ IH]; [reflexivity|].
  cbn [filter]. rewrite He.
  destruct (key_eqb k' k) eqn:E; [|exact IH].
  apply key_eqb_eq in E. congruence.
Qed.

Lemma rows_of_app (k : key) (a b : list event) :
  rows_of k (a ++ b)%list = (rows_of k a ++ rows_of k b)%list.
Proof. apply filter_app. Qed.

Lemma rows_of_concat_none (k : key) :
  forall (pairs : list (timestamp * string)) (frames : list (list event)),
    Forall2 (fun dg rows => Forall (fun e => key_of e = (snd dg, fst dg)) rows)
      pairs frames ->
    (forall dg, In dg pairs -> k <> (snd dg, fst dg)) ->
    rows_of k (concat frames) = [].
Proof.
  induction 1 as [|dg rows pairs frames Hkeys _ IH]; intro Hne;
    [reflexivity|].
  cbn [concat]. rewrite rows_of_app.
  rewrite (rows_of_none k (snd dg, fst dg) rows);
    [|apply Hne; left; reflexivity | exact Hkeys].
  apply IH. intros dg' Hin. apply Hne. right. exact Hin.
Qed.

(** In a concatenation of frames that each hold the rows of one pair, the
    pairs being distinct, the rows of a pair are its frame. *)
Lemma rows_of_concat (Q : timestamp * string -> list event -> Prop) :
  forall pairs frames,
    NoDup pairs ->
    Forall2 (fun dg rows =>
               Forall (fun e => key_of e = (snd dg, fst dg)) rows /\ Q dg rows)
      pairs frames ->
    forall dg, In dg pairs -> Q dg (rows_of (snd dg, fst dg) (concat frames)).
Proof.
  intros pairs frames Hnd Hall.
  induction Hall as [|dg0 rows pairs frames [Hkeys HQ] Hrest IH];
    intros dg Hin; [destruct Hin|].
  inversion Hnd as [|? ? Hnotin Hnd']; subst.
  cbn [concat]. rewrite rows_of_app.
  destruct Hin as [<-|Hin].
  - rewrite (rows_of_all _ _ Hkeys).
    rewrite (rows_of_concat_none (snd dg0, fst dg0) pairs frames).
    + rewrite app_nil_r. exact HQ.
    + eapply Forall2_impl; [|exact Hrest]. intros ? ? [Hk _]. exact Hk.
    + intros dg1 Hin1 E. injection E as E1 E2. apply Hnotin.
      destruct dg0, dg1. cbn in *. subst. exact Hin1.
  - rewrite (rows_of_none _ (snd dg0, fst dg0) rows).
    + cbn [app]. apply (IH Hnd' dg Hin).
    + intro E. injection E as E1 E2. apply Hnotin.
      destruct dg0, dg. cbn in *. subst. exact Hin.
    + exact Hkeys.
Qed.

Lemma concat_length_bounds (low high : Z) :
  forall (pairs : list (timestamp * string)) (frames : list (list event)),
    Forall2 (fun _ rows => low <= Z.of_nat (length rows) < high)
      pairs frames ->
    Z.of_nat (length pairs) * low <= Z.of_nat (length (concat frames))
    <= Z.of_nat (length pairs) * (high - 1).
Proof.
  induction 1 as [|dg rows pairs frames Hrows _ IH]; [cbn; lia|].
  cbn [concat length]. rewrite length_app. lia.
Qed.

(** X2. On a valid configuration with distinct groups, every day and
    group of the loop has between [events_low] and [events_high - 1] rows
    in the Event table (150 to 199 in the notebook), and the table has
    between [num_days * groups * events_low] and
    [num_days * groups * (events_high - 1)] rows. *)
Theorem events_per_day_and_group {G} `{GeneratorLaws G} (p : params)
  (st : G) :
  valid_params p = true ->
  NoDup (groups p) ->
  exists data st',
    simulate p st = Some (data, st') /\
    (forall d g,
       In d (dates p) -> In g (groups p) ->
       events_low p <= Z.of_nat (length (rows_of (g, d) data))
       < events_high p) /\
    Z.of_nat (num_days p * length (groups p)) * events_low p
    <= Z.of_nat (length data)
    <= Z.of_nat (num_days p * length (groups p)) * (events_high p - 1).
Proof.
  intros Hvalid Hgroups.
  destruct (simulate_total p st Hvalid) as (data & st' & Hrun).
  exists data, st'. split; [exact Hrun|].
  apply simulate_inv in Hrun as (frames & -> & _ & Hframes).
  assert (Hall : Forall2
                   (fun dg rows =>
                      Forall (fun e => key_of e = (snd dg, fst dg)) rows /\
                      events_low p <= Z.of_nat (length rows) < events_high p)
                   (loop_pairs p) frames).
  { eapply Forall2_impl; [|exact Hframes].
    intros [d g] rows (s1 & s2 & Hday). cbn [fst snd] in *.
    apply simulate_day_rows in Hday as [Hlen Hrows].
    split; [|exact Hlen].
    eapply Forall_impl; [|exact Hrows].
    intros e (Hd & Hg & _). unfold key_of. now rewrite Hd, Hg. }
  split.
  - intros d g Hd Hg.
    apply (rows_of_concat
             (fun _ rows =>
                events_low p <= Z.of_nat (length rows) < events_high p)
             (loop_pairs p) frames (loop_pairs_NoDup p Hgroups) Hall (d, g)).
    apply loop_pairs_In. auto.
  - rewrite <- loop_pairs_length.
    apply concat_length_bounds.
    eapply Forall2_impl; [|exact Hall]. intros dg rows [_ Hlen]. exact Hlen.
Qed.

Lemma events_per_day_and_group_witness :
  exists data st',
    simulate reference (play []) = Some (data, st') /\
    (forall d g,
       In d (dates reference) -> In g (groups reference) ->
       events_low reference <= Z.of_nat (length (rows_of (g, d) data))
       < events_high reference) /\
    Z.of_nat (num_days reference * length (groups reference))
    * events_low reference
    <= Z.of_nat (length data)
    <= Z.of_nat (num_days reference * length (groups reference))
       * (events_high reference - 1).
Proof.
  apply (events_per_day_and_group reference (play [])).
  - reflexivity.
  - cbn [reference groups]. repeat constructor; cbn; intuition discriminate.
Defined.

(** ** A group that cannot click, a group that cannot purchase *)

Lemma count_type_none (label : string) (x : list event) :
  Forall (fun e => event_type e <> label) x -> count_type label x = 0%nat.
Proof.
  unfold count_type. induction 1 as [|e x He _ IH]; [reflexivity|].
  cbn [filter]. apply String.eqb_neq in He. rewrite He. exact IH.
Qed.

Lemma Qsum_zero (l : list Q) :
  Forall (fun q => q = 0%Q) l -> (Qsum l == 0)%Q.
Proof.
  induction 1 as [|q l -> _ IH]; cbn [Qsum fold_right]; [reflexivity|].
  change (fold_right Qplus 0%Q l) with (Qsum l). rewrite IH. reflexivity.
Qed.

Lemma clean_zero_ratio (b : Q) :
  is_value (clean (fmul (fdiv (Fin 0) (Fin b)) (Fin 100))) 0.
Proof.
  cbn [fdiv]. destruct (Qeq_bool b 0); [reflexivity|].
  cbn [fmul clean is_value]. unfold Qdiv. ring.
Qed.

Lemma clean_zero_mean (a : Q) :
  is_value (clean (fdiv (Fin a) (Fin 0))) 0.
Proof.
  destruct (clean_div_by_zero (Fin a) (Fin 0)) as [E _];
    [reflexivity|].
  rewrite E. reflexivity.
Qed.

Section ZeroProbability.

Context {G : Type} `{GeneratorLaws G}.

(** A day whose click probability is not positive keeps every row a
    [view]; a day whose purchase probability is not positive has no
    purchase.  Either way no row has revenue. *)
Lemma simulate_day_no_promotion (p : params) (d : timestamp) (g : string)
  st rows st' :
  simulate_day p d g st = Some (rows, st') ->
  ((p_click p g <= 0)%Q ->
   Forall (fun e => event_type e = "view" /\ revenue e = 0%Q) rows) /\
  ((p_purchase p g <= 0)%Q ->
   Forall (fun e => event_type e <> "purchase" /\ revenue e = 0%Q) rows).
Proof.
  intro Hday.
  apply simulate_day_draws in Hday as (t & Hrows & Hru & Hrv & _).
  rewrite Forall_forall in Hru, Hrv.
  split; intro Hp; apply Forall_forall; intros e Hin;
    destruct (Forall2_In_r _ _ _ Hrows e Hin)
      as ([uid [u v]] & Hx & _ & _ & _ & Hlabel & Hrev);
    apply in_combine_r in Hx;
    pose proof (in_combine_l _ _ _ _ Hx) as Hu;
    pose proof (in_combine_r _ _ _ _ Hx) as Hv;
    destruct (Hru u Hu) as [Hu0 _]; destruct (Hrv v Hv) as [Hv0 _];
    cbn [fst snd] in Hlabel, Hrev; rewrite label_of_cases in Hlabel.
  - assert (E : Qltb u (p_click p g) = false)
      by (apply Qltb_ge; eapply Qle_trans; eassumption).
    rewrite E in Hlabel, Hrev. cbn [andb] in Hrev. auto.
  - assert (E : Qltb v (p_purchase p g) = false)
      by (apply Qltb_ge; eapply Qle_trans; eassumption).
    rewrite E in Hlabel, Hrev. rewrite andb_false_r in Hrev.
    split; [|exact Hrev].
    rewrite Hlabel. destruct (Qltb u (p_click p g)); discriminate.
Qed.

End ZeroProbability.

(** X3. A group whose click probability is 0 (or negative) never gets
    past the view: on a valid configuration that draws at least one event
    per day, all its rows stay [view] with revenue 0, and each of its KPI
    rows has clicks = 0, purchases = 0, CTR = 0, CVR = 0 and AOV = 0. *)
Theorem zero_click_probability {G} `{GeneratorLaws G} (p : params)
  (g : string) (st : G) :
  valid_params p = true ->
  0 < events_low p ->
  (p_click p g <= 0)%Q ->
  exists data st' kpi,
    simulate p st = Some (data, st') /\
    kpi_data data = Some kpi /\
    Forall (fun e => group e = g ->
                     event_type e = "view" /\ revenue e = 0%Q) data /\
    Forall (fun r =>
              get_str "group" r = Some g ->
              exists cvr aov ctr,
                get_num "clicks" r = Some (Fin 0) /\
                get_num "purchases" r = Some (Fin 0) /\
                get_num "CVR" r = Some cvr /\
                get_num "AOV" r = Some aov /\
                get_num "CTR" r = Some ctr /\
                is_value cvr 0 /\ is_value aov 0 /\ is_value ctr 0) kpi.
Proof.
  intros Hvalid Hlow Hp.
  destruct (simulate_total p st Hvalid) as (data & st' & Hrun).
  pose proof (simulate_nonempty p st data st' Hrun Hvalid Hlow) as Hdata.
  exists data, st',
    (map (fun kx => kpi_row_of (fst kx) (snd kx)) (groupby data)).
  split; [exact Hrun | split; [apply kpi_data_rows, Hdata|]].
  assert (Hrows : Forall (fun e => group e = g ->
                                   event_type e = "view" /\ revenue e = 0%Q)
                    data).
  { apply (simulate_Forall _ p st data st'); [|exact Hrun].
    intros d g' s1 rows s2 _ Hday.
    pose proof (simulate_day_rows p d g' s1 rows s2 Hday) as [_ Hkeys].
    apply simulate_day_no_promotion in Hday as [Hview _].
    rewrite Forall_forall in Hkeys.
    apply Forall_forall. intros e Hin Hg.
    destruct (Hkeys e Hin) as (_ & Hg' & _).
    rewrite Hg in Hg'. subst g'.
    specialize (Hview Hp). rewrite Forall_forall in Hview. auto. }
  split; [exact Hrows|].
  apply Forall_forall. intros r Hin.
  apply in_map_iff in Hin as ([[g' d] x] & <- & Hin).
  apply groupby_In in Hin as [_ ->]. cbn [fst snd].
  intro Hg. injection Hg as ->.
  set (x := rows_of (g, d) data).
  assert (Hx : Forall (fun e => event_type e = "view" /\ revenue e = 0%Q) x).
  { apply Forall_forall. intros e He. apply filter_In in He as [He Hk].
    apply key_eqb_eq in Hk. rewrite Forall_forall in Hrows.
    apply (Hrows e He). unfold key_of in Hk. congruence. }
  assert (Hc : count_type "click" x = 0%nat).
  { apply count_type_none. eapply Forall_impl; [|exact Hx].
    intros e [-> _]. discriminate. }
  assert (Hpu : count_type "purchase" x = 0%nat).
  { apply count_type_none. eapply Forall_impl; [|exact Hx].
    intros e [-> _]. discriminate. }
  do 3 eexists.
  unfold kpi_row_of, get_num. fold x.
  cbn [lookup String.eqb Ascii.eqb Bool.eqb]. rewrite Hc, Hpu.
  do 5 (split; [reflexivity|]).
  split; [apply clean_zero_ratio | split; [apply clean_zero_mean|]].
  apply clean_zero_ratio.
Qed.

Lemma zero_click_probability_witness :
  exists data st' kpi,
    simulate (scenario 5 0 (1 # 2)) (play []) = Some (data, st') /\
    kpi_data data = Some kpi /\
    Forall (fun e => group e = "control" ->
                     event_type e = "view" /\ revenue e = 0%Q) data /\
    Forall (fun r =>
              get_str "group" r = Some "control" ->
              exists cvr aov ctr,
                get_num "clicks" r = Some (Fin 0) /\
                get_num "purchases" r = Some (Fin 0) /\
                get_num "CVR" r = Some cvr /\
                get_num "AOV" r = Some aov /\
                get_num "CTR" r = Some ctr /\
                is_value cvr 0 /\ is_value aov 0 /\ is_value ctr 0) kpi.
Proof.
  apply (zero_click_probability (scenario 5 0 (1 # 2)) "control" (play []));
    reflexivity || discriminate.
Defined.

(** X4. A group whose purchase probability is 0 (or negative) never
    purchases: on a valid configuration that draws at least one event per
    day, none of its rows is a [purchase], all have revenue 0, and each of
    its KPI rows has purchases = 0, revenue = 0, CVR = 0 and AOV = 0. *)
Theorem zero_purchase_probability {G} `{GeneratorLaws G} (p : params)
  (g : string) (st : G) :
  valid_params p = true ->
  0 < events_low p ->
  (p_purchase p g <= 0)%Q ->
  exists data st' kpi,
    simulate p st = Some (data, st') /\
    kpi_data data = Some kpi /\
    Forall (fun e => group e = g ->
                     event_type e <> "purchase" /\ revenue e = 0%Q) data /\
    Forall (fun r =>
              get_str "group" r = Some g ->
              exists rev cvr aov,
                get_num "purchases" r = Some (Fin 0) /\
                get_num "revenue" r = Some rev /\
                get_num "CVR" r = Some cvr /\
                get_num "AOV" r = Some aov /\
                is_value rev 0 /\ is_value cvr 0 /\ is_value aov 0) kpi.
Proof.
  intros Hvalid Hlow Hp.
  destruct (simulate_total p st Hvalid) as (data & st' & Hrun).
  pose proof (simulate_nonempty p st data st' Hrun Hvalid Hlow) as Hdata.
  exists data, st',
    (map (fun kx => kpi_row_of (fst kx) (snd kx)) (groupby data)).
  split; [exact Hrun | split; [apply kpi_data_rows, Hdata|]].
  assert (Hrows : Forall (fun e => group e = g ->
                                   event_type e <> "purchase"
                                   /\ revenue e = 0%Q) data).
  { apply (simulate_Forall _ p st data st'); [|exact Hrun].
    intros d g' s1 rows s2 _ Hday.
    pose proof (simulate_day_rows p d g' s1 rows s2 Hday) as [_ Hkeys].
    apply simulate_day_no_promotion in Hday as [_ Hnone].
    rewrite Forall_forall in Hkeys.
    apply Forall_forall. intros e Hin Hg.
    destruct (Hkeys e Hin) as (_ & Hg' & _).
    rewrite Hg in Hg'. subst g'.
    specialize (Hnone Hp). rewrite Forall_forall in Hnone. auto. }
  split; [exact Hrows|].
  apply Forall_forall. intros r Hin.
  apply in_map_iff in Hin as ([[g' d] x] & <- & Hin).
  apply groupby_In in Hin as [_ ->]. cbn [fst snd].
  intro Hg. injection Hg as ->.
  set (x := rows_of (g, d) data).
  assert (Hx : Forall (fun e => event_type e <> "purchase"
                                /\ revenue e = 0%Q) x).
  { apply Forall_forall. intros e He. apply filter_In in He as [He Hk].
    apply key_eqb_eq in Hk. rewrite Forall_forall in Hrows.
    apply (Hrows e He). unfold key_of in Hk. congruence. }
  assert (Hpu : count_type "purchase" x = 0%nat).
  { apply count_type_none. eapply Forall_impl; [|exact Hx].
    intros e [Hne _]. exact Hne. }
  assert (Hrev : (Qsum (map revenue x) == 0)%Q).
  { apply Qsum_zero, Forall_map. eapply Forall_impl; [|exact Hx].
    intros e [_ E]. exact E. }
  do 3 eexists.
  unfold kpi_row_of, get_num. fold x.
  cbn [lookup String.eqb Ascii.eqb Bool.eqb]. rewrite Hpu.
  do 4 (split; [reflexivity|]).
  split; [exact Hrev | split; [apply clean_zero_ratio|]].
  apply clean_zero_mean.
Qed.

Lemma zero_purchase_probability_witness :
  exists data st' kpi,
    simulate (scenario 5 (1 # 2) 0) (play []) = Some (data, st') /\
    kpi_data data = Some kpi /\
    Forall (fun e => group e = "control" ->
                     event_type e <> "purchase" /\ revenue e = 0%Q) data /\
    Forall (fun r =>
              get_str "group" r = Some "control" ->
              exists rev cvr aov,
                get_num "purchases" r = Some (Fin 0) /\
                get_num "revenue" r = Some rev /\
                get_num "CVR" r = Some cvr /\
                get_num "AOV" r = Some aov /\
                is_value rev 0 /\ is_value cvr 0 /\ is_value aov 0) kpi.
Proof.
  apply (zero_purchase_probability (scenario 5 (1 # 2) 0) "control"
           (play []));
    reflexivity || discriminate.
Defined.

(** ** Sums over the groups of a table *)

Lemma Qsum_cons (q : Q) (l : list Q) : Qsum (q :: l) = (q + Qsum l)%Q.
Proof. reflexivity. Qed.

Lemma Qsum_pointwise {A} (f h : A -> Q) (l : list A) :
  (forall x, In x l -> (f x == h x)%Q) ->
  (Qsum (map f l) == Qsum (map h l))%Q.
Proof.
  induction l as [|x l IH]; intro Hfh; [reflexivity|].
  cbn [map]. rewrite !Qsum_cons.
  rewrite (Hfh x (or_introl eq_refl)), IH; [reflexivity|].
  intros y Hy. apply Hfh. right. exact Hy.
Qed.

Lemma fold_fadd_Fin (qs : list Q) :
  fold_right fadd (Fin 0) (map Fin qs) = Fin (Qsum qs).
Proof.
  induction qs as [|q qs IH]; [reflexivity|].
  cbn [map fold_right]. rewrite IH. reflexivity.
Qed.

(** The measure of a table on the rows picked by [a] or [b], the two
    never picking the same row. *)
Lemma Qsum_filter_or (m : event -> Q) (a b : event -> bool)
  (data : list event) :
  (forall e, In e data -> a e = true -> b e = false) ->
  (Qsum (map m (filter (fun e => a e || b e) data))
   == Qsum (map m (filter a data)) + Qsum (map m (filter b data)))%Q.
Proof.
  induction data as [|e data IH]; intro Hdisj; [reflexivity|].
  assert (IH' := IH (fun e' Hin => Hdisj e' (or_intror Hin))).
  pose proof (Hdisj e (or_introl eq_refl)) as He.
  cbn [filter]. destruct (a e) eqn:Ea.
  - rewrite (He eq_refl). cbn [orb map]. rewrite !Qsum_cons, IH'. ring.
  - cbn [orb]. destruct (b e); cbn [map]; rewrite ?Qsum_cons, IH'; ring.
Qed.

(** Summing a measure group by group, over distinct keys, is summing it
    over the rows whose key is one of them. *)
Lemma Qsum_by_keys (m : event -> Q) (data : list event) (ks : list key) :
  NoDup ks ->
  (Qsum (map (fun k => Qsum (map m (rows_of k data))) ks)
   == Qsum (map m (filter (fun e => existsb (key_eqb (key_of e)) ks) data)))%Q.
Proof.
  induction 1 as [|k ks Hk _ IH].
  - cbn [map existsb]. induction data; [reflexivity | assumption].
  - cbn [map existsb]. rewrite Qsum_cons, IH.
    rewrite (Qsum_filter_or m (fun e => key_eqb (key_of e) k)
               (fun e => existsb (key_eqb (key_of e)) ks)).
    + reflexivity.
    + intros e _ Ek. apply key_eqb_eq in Ek. rewrite Ek.
      destruct (existsb (key_eqb k) ks) eqn:E; [|reflexivity].
      apply existsb_key in E. contradiction.
Qed.

Lemma filter_all {A} (f : A -> bool) (l : list A) :
  (forall x, In x l -> f x = true) -> filter f l = l.
Proof.
  induction l as [|x l IH]; intro Hall; [reflexivity|].
  cbn [filter]. rewrite (Hall x (or_introl eq_refl)).
  f_equal. apply IH. intros y Hy. apply Hall. right. exact Hy.
Qed.

(** The same over the keys of one group of the table. *)
Lemma Qsum_by_group_keys (m : event -> Q) (data : list event) (g : string) :
  (Qsum (map (fun k => Qsum (map m (rows_of k data)))
          (filter (fun k => String.eqb (fst k) g) (group_keys data)))
   == Qsum (map m (filter (fun e => String.eqb (group e) g) data)))%Q.
Proof.
  rewrite Qsum_by_keys by (apply NoDup_filter, group_keys_NoDup).
  rewrite (filter_ext_in _ (fun e => String.eqb (group e) g));
    [reflexivity|].
  intros e He.
  destruct (String.eqb (group e) g) eqn:Eg.
  - apply existsb_key, filter_In. split.
    + apply group_keys_In. eauto.
    + exact Eg.
  - destruct (existsb _ _) eqn:E; [|reflexivity].
    apply existsb_key, filter_In in E as [_ E]. cbn [key_of fst] in E.
    congruence.
Qed.

(** And over all keys of the table. *)
Lemma Qsum_by_all_keys (m : event -> Q) (data : list event) :
  (Qsum (map (fun k => Qsum (map m (rows_of k data))) (group_keys data))
   == Qsum (map m data))%Q.
Proof.
  rewrite Qsum_by_keys by apply group_keys_NoDup.
  rewrite filter_all; [reflexivity|].
  intros e He. apply existsb_key, group_keys_In. eauto.
Qed.

Lemma count_as_sum (label : string) (x : list event) :
  (inject_Z (Z.of_nat (count_type label x))
   == Qsum (map (indicator label) x))%Q.
Proof.
  unfold count_type, indicator.
  induction x as [|e x IH]; [reflexivity|].
  cbn [filter map]. rewrite Qsum_cons, <- IH.
  destruct (String.eqb (event_type e) label); cbn [length].
  - unfold Qeq, Qplus, inject_Z. cbn [Qnum Qden]. lia.
  - unfold Qeq, Qplus, inject_Z. cbn [Qnum Qden]. lia.
Qed.

Lemma column_sum_map {A} (name : string) (b : A -> row) (f : A -> Q)
  (xs : list A) :
  (forall x, get_num name (b x) = Some (Fin (f x))) ->
  column_sum name (map b xs) = Some (Fin (Qsum (map f xs))).
Proof.
  intro Hget. unfold column_sum.
  rewrite (column_map name b (fun x => Fin (f x)) xs Hget). cbn [obind].
  rewrite <- (map_map f Fin), fold_fadd_Fin. reflexivity.
Qed.

Lemma filter_keyed {A} (P : key -> bool) (h : key -> A) (ks : list key) :
  filter (fun kx => P (fst kx)) (map (fun k => (k, h k)) ks)
  = map (fun k => (k, h k)) (filter P ks).
Proof.
  induction ks as [|k ks IH]; [reflexivity|].
  cbn [map filter fst]. destruct (P k); cbn [map]; now rewrite IH.
Qed.

(** The KPI rows of one group are the rows of its keys. *)
Lemma group_data_rows (g : string) (data : list event) :
  group_data g (map (fun kx => kpi_row_of (fst kx) (snd kx)) (groupby data))
  = map (fun k => kpi_row_of k (rows_of k data))
      (filter (fun k => String.eqb (fst k) g) (group_keys data)).
Proof.
  unfold group_data, groupby. rewrite map_map. cbn [fst snd].
  induction (group_keys data) as [|k ks IH]; [reflexivity|].
  cbn [map filter lookup kpi_row_of String.eqb Ascii.eqb Bool.eqb].
  destruct (String.eqb (fst k) g); cbn [map]; now rewrite IH.
Qed.

(** X5. Aggregation loses and duplicates nothing: on a non-empty Event
    table the [views], [clicks] and [purchases] columns of the KPI table
    sum to the numbers of rows with these labels, and the [revenue] column
    sums to the revenue of the whole table. *)
Theorem aggregation_conserves_totals (data : list event) :
  data <> [] ->
  exists kpi views clicks purchases rev,
    kpi_data data = Some kpi /\
    column_sum "views" kpi = Some views /\
    column_sum "clicks" kpi = Some clicks /\
    column_sum "purchases" kpi = Some purchases /\
    column_sum "revenue" kpi = Some rev /\
    is_value views (inject_Z (Z.of_nat (count_type "view" data))) /\
    is_value clicks (inject_Z (Z.of_nat (count_type "click" data))) /\
    is_value purchases (inject_Z (Z.of_nat (count_type "purchase" data))) /\
    is_value rev (Qsum (map revenue data)).
Proof.
  intro Hdata.
  exists (map (fun kx => kpi_row_of (fst kx) (snd kx)) (groupby data)).
  do 4 eexists.
  split; [apply kpi_data_rows, Hdata|].
  split; [apply (column_sum_map "views" _
                   (fun kx => inject_Z (Z.of_nat (count_type "view" (snd kx)))));
          reflexivity|].
  split; [apply (column_sum_map "clicks" _
                   (fun kx => inject_Z (Z.of_nat (count_type "click" (snd kx)))));
          reflexivity|].
  split; [apply (column_sum_map "purchases" _
                   (fun kx => inject_Z
                                (Z.of_nat (count_type "purchase" (snd kx)))));
          reflexivity|].
  split; [apply (column_sum_map "revenue" _
                   (fun kx => Qsum (map revenue (snd kx))));
          reflexivity|].
  unfold groupby. rewrite !map_map. cbn [snd is_value].
  assert (Hcount : forall label,
             (Qsum (map (fun k => inject_Z
                                    (Z.of_nat (count_type label (rows_of k data))))
                     (group_keys data))
              == inject_Z (Z.of_nat (count_type label data)))%Q).
  { intro label. rewrite (count_as_sum label data).
    rewrite <- (Qsum_by_all_keys (indicator label) data).
    apply Qsum_pointwise. intros k _. apply count_as_sum. }
  split; [apply Hcount | split; [apply Hcount | split; [apply Hcount|]]].
  apply Qsum_by_all_keys.
Qed.

Lemma aggregation_conserves_totals_witness :
  exists kpi views clicks purchases rev,
    kpi_data [ Build_event 1000 0 "purchase" "control" 50;
               Build_event 1001 0 "view" "treatment" 0;
               Build_event 1002 1 "click" "control" 0;
               Build_event 1003 1 "purchase" "control" 30 ] = Some kpi /\
    column_sum "views" kpi = Some views /\
    column_sum "clicks" kpi = Some clicks /\
    column_sum "purchases" kpi = Some purchases /\
    column_sum "revenue" kpi = Some rev /\
    is_value views 1 /\
    is_value clicks 1 /\
    is_value purchases 2 /\
    is_value rev 80.
Proof.
  destruct (aggregation_conserves_totals
              [ Build_event 1000 0 "purchase" "control" 50;
                Build_event 1001 0 "view" "treatment" 0;
                Build_event 1002 1 "click" "control" 0;
                Build_event 1003 1 "purchase" "control" 30 ])
    as (kpi & views & clicks & purchases & rev & Hk & Hv & Hc & Hp & Hr
        & Ev & Ec & Ep & Er); [discriminate|].
  exists kpi, views, clicks, purchases, rev.
  repeat split; assumption.
Defined.

(** X6. The contingency table of a non-empty Event table: the [Purchases]
    cell of a group is the number of its [purchase] rows, and its
    [Non-Purchases] cell is the number of its rows still labelled [view]
    minus the number of its [purchase] rows. *)
Theorem contingency_table_counts (data : list event) :
  data <> [] ->
  exists kpi pc nc pt nt,
    kpi_data data = Some kpi /\
    cr_table kpi = Some [("Control", (pc, nc)); ("Treatment", (pt, nt))] /\
    is_value pc (group_count "purchase" "control" data) /\
    is_value nc (group_count "view" "control" data
                 - group_count "purchase" "control" data) /\
    is_value pt (group_count "purchase" "treatment" data) /\
    is_value nt (group_count "view" "treatment" data
                 - group_count "purchase" "treatment" data).
Proof.
  intro Hdata.
  exists (map (fun kx => kpi_row_of (fst kx) (snd kx)) (groupby data)).
  assert (Hsum : forall g label name,
             (forall k x, get_num name (kpi_row_of k x)
                          = Some (of_count (count_type label x))) ->
             exists q,
               column_sum name
                 (group_data g
                    (map (fun kx => kpi_row_of (fst kx) (snd kx))
                       (groupby data))) = Some (Fin q) /\
               (q == group_count label g data)%Q).
  { intros g label name Hget. rewrite group_data_rows.
    eexists. split.
    - apply (column_sum_map name _
               (fun k => inject_Z
                           (Z.of_nat (count_type label (rows_of k data))))).
      intro k. apply Hget.
    - unfold group_count. rewrite (count_as_sum label (filter _ data)).
      rewrite <- (Qsum_by_group_keys (indicator label) data g).
      apply Qsum_pointwise. intros k _. apply count_as_sum. }
  destruct (Hsum "control" "purchase" "purchases"
              ltac:(intros; reflexivity)) as (pc & Hpc & Epc).
  destruct (Hsum "control" "view" "views"
              ltac:(intros; reflexivity)) as (vc & Hvc & Evc).
  destruct (Hsum "treatment" "purchase" "purchases"
              ltac:(intros; reflexivity)) as (pt & Hpt & Ept).
  destruct (Hsum "treatment" "view" "views"
              ltac:(intros; reflexivity)) as (vt & Hvt & Evt).
  exists (Fin pc), (Fin (vc - pc)), (Fin pt), (Fin (vt - pt)).
  split; [apply kpi_data_rows, Hdata|].
  split.
  - unfold cr_table, cr_line. rewrite Hpc, Hvc, Hpt, Hvt. reflexivity.
  - cbn [is_value]. rewrite Epc, Evc, Ept, Evt. repeat split; reflexivity.
Qed.

Lemma contingency_table_counts_witness :
  exists kpi pc nc pt nt,
    kpi_data [ Build_event 1000 0 "purchase" "control" 50;
               Build_event 1001 0 "view" "treatment" 0;
               Build_event 1002 1 "click" "control" 0;
               Build_event 1003 1 "purchase" "control" 30 ] = Some kpi /\
    cr_table kpi = Some [("Control", (pc, nc)); ("Treatment", (pt, nt))] /\
    is_value pc 2 /\ is_value nc (0 - 2) /\
    is_value pt 0 /\ is_value nt (1 - 0).
Proof.
  destruct (contingency_table_counts
              [ Build_event 1000 0 "purchase" "control" 50;
                Build_event 1001 0 "view" "treatment" 0;
                Build_event 1002 1 "click" "control" 0;
                Build_event 1003 1 "purchase" "control" 30 ])
    as (kpi & pc & nc & pt & nt & Hk & Ht & Epc & Enc & Ept & Ent);
    [discriminate|].
  exists kpi, pc, nc, pt, nt. repeat split; assumption.
Defined.

(** ** The average order value of a simulated day *)


Lemma Permutation_filter_length {A} (f : A -> bool) (l l' : list A) :
  Permutation l l' -> length (filter f l) = length (filter f l').
Proof.
  induction 1 as [|x l l' _ IH|x y l|l l' l'' _ IH1 _ IH2];
    cbn [filter]; try reflexivity.
  - destruct (f x); cbn [length]; now rewrite IH.
  - destruct (f x), (f y); reflexivity.
  - congruence.
Qed.

Lemma filter_one (g : string) (l : list string) :
  NoDup l -> In g l -> length (filter (fun s => String.eqb s g) l) = 1%nat.
Proof.
  induction 1 as [|s l Hs _ IH]; intro Hin; [destruct Hin|].
  cbn [filter]. destruct (String.eqb s g) eqn:E.
  - apply String.eqb_eq in E. subst s. cbn [length]. f_equal.
    clear IH Hin. induction l as [|s l IH]; [reflexivity|].
    cbn [filter]. destruct (String.eqb s g) eqn:E.
    + apply String.eqb_eq in E. subst s. exfalso. apply Hs. left. reflexivity.
    + apply IH. intro Hin. apply Hs. right. exact Hin.
  - apply String.eqb_neq in E. destruct Hin as [->|Hin]; [congruence|].
    apply IH, Hin.
Qed.

Lemma loop_pairs_group_count (p : params) (g : string) :
  NoDup (groups p) -> In g (groups p) ->
  length (filter (fun k : key => String.eqb (fst k) g)
            (map (fun dg : timestamp * string => (snd dg, fst dg))
               (loop_pairs p)))
  = num_days p.
Proof.
  intros Hnd Hin. unfold loop_pairs, dates.
  assert (Hl : forall l : list nat,
             length (filter (fun k : key => String.eqb (fst k) g)
                       (map (fun dg : timestamp * string => (snd dg, fst dg))
                          (flat_map (fun d => map (pair d) (groups p))
                             (map Z.of_nat l))))
             = length l).
  { induction l as [|n l IH]; [reflexivity|].
    cbn [map flat_map]. rewrite map_app, filter_app, length_app.
    cbn [length]. change (S (length l)) with (1 + length l)%nat.
    apply f_equal2; [|exact IH].
    rewrite map_map. cbn [fst snd].
    rewrite filter_map_length. cbn [fst].
    apply (filter_one g (groups p) Hnd Hin). }
  rewrite Hl. apply length_seq.
Qed.

Section Samples.

Context {G : Type} `{GeneratorLaws G}.

(** The keys of a simulated table are the pairs of the loop, in some
    order. *)
Lemma simulate_keys_perm (p : params) st data st' :
  simulate p st = Some (data, st') ->
  0 < events_low p ->
  NoDup (groups p) ->
  Permutation (group_keys data)
    (map (fun dg : timestamp * string => (snd dg, fst dg)) (loop_pairs p)).
Proof.
  intros Hrun Hlow Hgroups.
  apply NoDup_Permutation.
  - apply group_keys_NoDup.
  - generalize (loop_pairs_NoDup p Hgroups). generalize (loop_pairs p).
    induction 1 as [|dg l Hdg _ IH]; cbn [map]; constructor; [|exact IH].
    rewrite in_map_iff. intros ([d' g'] & E & Hin).
    destruct dg as [d g]. cbn [fst snd] in E. injection E as -> ->. auto.
  - intros [g d]. rewrite group_keys_In.
    rewrite (simulate_keys p st data st' Hrun Hlow (g, d)). cbn [fst snd].
    rewrite in_map_iff. split.
    + intro Hin. exists (d, g). auto.
    + intros ([d' g'] & E & Hin). cbn [fst snd] in E.
      injection E as -> ->. exact Hin.
Qed.

End Samples.



(** X8. The two samples of the t-test: on a valid configuration with
    distinct groups that draws at least one event per day, each group has
    exactly one KPI row, and so one AOV, per simulated day (30 for
    [control_data] and 30 for [treatment_data] in the notebook). *)
Theorem one_kpi_row_per_day_in_each_group {G} `{GeneratorLaws G}
  (p : params) (g : string) (st : G) :
  valid_params p = true ->
  0 < events_low p ->
  NoDup (groups p) ->
  In g (groups p) ->
  exists data st' kpi aov,
    simulate p st = Some (data, st') /\
    kpi_data data = Some kpi /\
    length (group_data g kpi) = num_days p /\
    column "AOV" (group_data g kpi) = Some aov /\
    length aov = num_days p.
Proof.
  intros Hvalid Hlow Hnd Hg.
  destruct (simulate_total p st Hvalid) as (data & st' & Hrun).
  pose proof (simulate_nonempty p st data st' Hrun Hvalid Hlow) as Hdata.
  exists data, st',
    (map (fun kx => kpi_row_of (fst kx) (snd kx)) (groupby data)).
  eexists.
  split; [exact Hrun | split; [apply kpi_data_rows, Hdata|]].
  rewrite group_data_rows.
  assert (Hlen : length (filter (fun k : key => String.eqb (fst k) g)
                           (group_keys data)) = num_days p).
  { rewrite (Permutation_filter_length _ _ _
               (simulate_keys_perm p st data st' Hrun Hlow Hnd)).
    apply loop_pairs_group_count; assumption. }
  split; [rewrite length_map; exact Hlen|].
  split.
  - apply (column_map "AOV" _
             (fun k => clean (fdiv (Fin (Qsum (map revenue (rows_of k data))))
                                (of_count (count_type "purchase"
                                             (rows_of k data)))))).
    intro k. reflexivity.
  - rewrite length_map. exact Hlen.
Qed.

Lemma one_kpi_row_per_day_in_each_group_witness :
  exists data st' kpi aov,
    simulate reference (play []) = Some (data, st') /\
    kpi_data data = Some kpi /\
    length (group_data "treatment" kpi) = 30%nat /\
    column "AOV" (group_data "treatment" kpi) = Some aov /\
    length aov = 30%nat.
Proof.
  apply (one_kpi_row_per_day_in_each_group reference "treatment" (play [])).
  - reflexivity.
  - reflexivity.
  - cbn [reference groups]. repeat constructor; cbn; intuition discriminate.
  - right. left. reflexivity.
Defined.

(** ** The order of the KPI rows *)

Lemma compare_refl (s : string) : String.compare s s = Eq.
Proof. now apply OrderedTypeEx.String_as_OT.cmp_eq. Qed.

Lemma compare_lt_trans (a b c : string) :
  String.compare a b = Lt -> String.compare b c = Lt ->
  String.compare a c = Lt.
Proof.
  intros Hab Hbc.
  apply OrderedTypeEx.String_as_OT.cmp_lt in Hab, Hbc.
  apply OrderedTypeEx.String_as_OT.cmp_lt.
  eapply OrderedTypeEx.String_as_OT.lt_trans; eassumption.
Qed.

Lemma key_le_same_group (g : string) (a b : timestamp) :
  key_le (g, a) (g, b) <-> a <= b.
Proof.
  unfold key_le, key_leb. cbn [fst snd]. rewrite compare_refl.
  apply Z.leb_le.
Qed.

Lemma key_le_trans (a b c : key) : key_le a b -> key_le b c -> key_le a c.
Proof.
  destruct a as [ga da], b as [gb db], c as [gc dc].
  unfold key_le, key_leb. cbn [fst snd].
  destruct (String.compare ga gb) eqn:Eab; try discriminate;
    destruct (String.compare gb gc) eqn:Ebc; try discriminate;
    intros Hab Hbc.
  - apply String.compare_eq_iff in Eab, Ebc. subst.
    rewrite compare_refl. apply Z.leb_le. apply Z.leb_le in Hab, Hbc. lia.
  - apply String.compare_eq_iff in Eab. subst. now rewrite Ebc.
  - apply String.compare_eq_iff in Ebc. subst. now rewrite Eab.
  - now rewrite (compare_lt_trans _ _ _ Eab Ebc).
Qed.

Lemma key_le_total (a b : key) : key_le a b \/ key_le b a.
Proof.
  destruct a as [ga da], b as [gb db].
  unfold key_le, key_leb. cbn [fst snd].
  rewrite (String.compare_antisym gb ga).
  destruct (String.compare ga gb); cbn [CompOpp]; auto.
  rewrite !Z.leb_le. lia.
Qed.

Lemma insert_key_Forall (P : key -> Prop) (k : key) (l : list key) :
  P k -> Forall P l -> Forall P (insert_key k l).
Proof.
  intros Hk Hl.
  apply (Permutation_Forall (Permutation_sym (insert_key_perm k l))).
  constructor; assumption.
Qed.

Lemma insert_key_sorted (k : key) (l : list key) :
  StronglySorted key_le l -> StronglySorted key_le (insert_key k l).
Proof.
  induction 1 as [|k' l Hl IH Hall]; cbn [insert_key].
  - repeat constructor.
  - destruct (key_leb k k') eqn:E.
    + constructor; [constructor; assumption|].
      constructor; [exact E|].
      eapply Forall_impl; [|exact Hall].
      intros j Hj. eapply key_le_trans; [exact E | exact Hj].
    + constructor; [exact IH|].
      apply insert_key_Forall; [|exact Hall].
      destruct (key_le_total k k') as [Hle|Hle]; [|exact Hle].
      unfold key_le in Hle. congruence.
Qed.

Lemma sort_keys_sorted (l : list key) : StronglySorted key_le (sort_keys l).
Proof.
  induction l as [|k l IH]; [constructor|].
  cbn [sort_keys fold_right]. apply insert_key_sorted, IH.
Qed.

Lemma group_keys_sorted (data : list event) :
  StronglySorted key_le (group_keys data).
Proof. apply sort_keys_sorted. Qed.

(** A stable sort leaves a sorted frame as it is. *)
Lemma insert_rows_sorted (l : list (key * row)) :
  StronglySorted key_le (map fst l) -> fold_right insert_row [] l = l.
Proof.
  induction l as [|kr l IH]; [reflexivity|].
  cbn [map fold_right]. intro Hs.
  apply StronglySorted_inv in Hs as [Hs Hall].
  rewrite (IH Hs). destruct l as [|kr' l]; [reflexivity|].
  cbn [insert_row]. inversion Hall as [|? ? Hle _]; subst.
  unfold key_le in Hle. now rewrite Hle.
Qed.

Lemma row_keys_map {A} (b : A -> row) (f : A -> key) (xs : list A) :
  (forall x, row_key (b x) = Some (f x)) ->
  row_keys (map b xs) = Some (map f xs).
Proof.
  intro Hkey. induction xs as [|x xs IH]; [reflexivity|].
  cbn [map row_keys]. now rewrite Hkey, IH.
Qed.

Lemma combine_map_same {A B C} (f : A -> B) (h : A -> C) (xs : list A) :
  combine (map f xs) (map h xs) = map (fun x => (f x, h x)) xs.
Proof.
  induction xs as [|x xs IH]; [reflexivity|].
  cbn [map combine]. now rewrite IH.
Qed.

Lemma kpi_row_key (k : key) (x : list event) :
  row_key (kpi_row_of k x) = Some k.
Proof. destruct k. reflexivity. Qed.

(** The KPI table in terms of the sorted keys of the Event table. *)
Lemma kpi_data_by_keys (data : list event) :
  data <> [] ->
  kpi_data data
  = Some (map (fun k => kpi_row_of k (rows_of k data)) (group_keys data)).
Proof.
  intro Hdata. rewrite (kpi_data_rows data Hdata).
  unfold groupby. now rewrite map_map.
Qed.

Lemma sort_values_by_keys (data : list event) :
  sort_values (map (fun k => kpi_row_of k (rows_of k data)) (group_keys data))
  = Some (map (fun k => kpi_row_of k (rows_of k data)) (group_keys data)).
Proof.
  unfold sort_values.
  rewrite (row_keys_map _ (fun k => k)) by (intro; apply kpi_row_key).
  cbn [obind]. rewrite combine_map_same.
  rewrite insert_rows_sorted.
  - now rewrite map_map.
  - rewrite map_map. cbn [fst]. rewrite map_id.
    apply group_keys_sorted.
Qed.

(** X12. The KPI table of a non-empty Event table comes out ordered by
    group and, within a group, by date, every (group, date) key once; the
    [sort_values(by=['group', 'date'])] of the cumulative-revenue cell
    therefore returns it unchanged. *)
Theorem kpi_table_is_sorted (data : list event) :
  data <> [] ->
  exists kpi keys,
    kpi_data data = Some kpi /\
    row_keys kpi = Some keys /\
    StronglySorted key_le keys /\
    NoDup keys /\
    (forall g a b, key_le (g, a) (g, b) <-> a <= b) /\
    sort_values kpi = Some kpi.
Proof.
  intro Hdata.
  exists (map (fun k => kpi_row_of k (rows_of k data)) (group_keys data)),
    (group_keys data).
  split; [apply kpi_data_by_keys, Hdata|].
  split.
  - rewrite (row_keys_map _ (fun k => k)) by (intro; apply kpi_row_key).
    now rewrite map_id.
  - split; [apply group_keys_sorted|].
    split; [apply group_keys_NoDup|].
    split; [apply key_le_same_group | apply sort_values_by_keys].
Qed.

Lemma kpi_table_is_sorted_witness :
  exists kpi keys,
    kpi_data [ Build_event 1003 1 "purchase" "treatment" 30;
               Build_event 1000 1 "purchase" "control" 50;
               Build_event 1001 0 "view" "treatment" 0;
               Build_event 1002 0 "click" "control" 0 ] = Some kpi /\
    row_keys kpi = Some keys /\
    StronglySorted key_le keys /\
    NoDup keys /\
    (forall g a b, key_le (g, a) (g, b) <-> a <= b) /\
    sort_values kpi = Some kpi.
Proof.
  apply (kpi_table_is_sorted
           [ Build_event 1003 1 "purchase" "treatment" 30;
             Build_event 1000 1 "purchase" "control" 50;
             Build_event 1001 0 "view" "treatment" 0;
             Build_event 1002 0 "click" "control" 0 ]).
  discriminate.
Defined.

(** ** Cumulative revenue *)

Lemma Qsum_app (a b : list Q) : (Qsum (a ++ b) == Qsum a + Qsum b)%Q.
Proof.
  induction a as [|q a IH]; cbn [app].
  - change (Qsum []) with 0%Q. ring.
  - rewrite !Qsum_cons, IH. ring.
Qed.

Lemma Qsum_group_snoc (m : key -> Q) (g : string) (pre : list key)
  (k : key) :
  (Qsum (map m (filter (fun j => String.eqb (fst j) g) (pre ++ [k])))
   == Qsum (map m (filter (fun j => String.eqb (fst j) g) pre))
      + (if String.eqb (fst k) g then m k else 0))%Q.
Proof.
  rewrite filter_app, map_app, Qsum_app. cbn [filter].
  apply Qplus_comp; [reflexivity|].
  destruct (String.eqb (fst k) g); cbn [map]; rewrite ?Qsum_cons;
    change (Qsum []) with 0%Q; ring.
Qed.

(** The running totals that [group_cumsum] keeps are the totals of the
    groups over the keys met so far. *)
Lemma group_cumsum_running (m : key -> Q) :
  forall ks pre acc,
    (forall g, exists s,
        acc_get g acc = Fin s /\
        (s == Qsum (map m (filter (fun j => String.eqb (fst j) g) pre)))%Q) ->
    exists cs,
      group_cumsum acc (map fst ks) (map (fun k => Fin (m k)) ks)
      = map Fin cs /\
      Forall2 Qeq cs (running_totals m pre ks).
Proof.
  induction ks as [|k ks IH]; intros pre acc Hacc.
  - exists []. split; [reflexivity | constructor].
  - cbn [map group_cumsum].
    destruct (Hacc (fst k)) as (s0 & Hs0 & Es0). rewrite Hs0. cbn [fadd].
    assert (Ehead : (s0 + m k
                     == Qsum (map m (filter (fun j => String.eqb (fst j) (fst k))
                                       (pre ++ [k]))))%Q).
    { rewrite Qsum_group_snoc, String.eqb_refl, Es0. reflexivity. }
    destruct (IH (pre ++ [k])%list ((fst k, Fin (s0 + m k)) :: acc))
      as (cs & Hcs & Hall).
    { intro g. cbn [acc_get]. destruct (String.eqb (fst k) g) eqn:E.
      - exists (s0 + m k)%Q. split; [reflexivity|].
        apply String.eqb_eq in E. subst g. exact Ehead.
      - destruct (Hacc g) as (s & Hs & Es). exists s. split; [exact Hs|].
        rewrite Qsum_group_snoc, E, Es. ring. }
    exists ((s0 + m k)%Q :: cs). split.
    + cbn [map]. now rewrite Hcs.
    + cbn [running_totals]. constructor; assumption.
Qed.

Lemma sorted_app_le (a b : list key) :
  StronglySorted key_le (a ++ b) ->
  forall x y, In x a -> In y b -> key_le x y.
Proof.
  induction a as [|x0 a IH]; intros Hs x y Hx Hy; [destruct Hx|].
  cbn [app] in Hs. apply StronglySorted_inv in Hs as [Hs Hall].
  destruct Hx as [<-|Hx].
  - rewrite Forall_forall in Hall. apply Hall, in_or_app. right. exact Hy.
  - apply (IH Hs x y Hx Hy).
Qed.

Lemma filter_none {A} (f : A -> bool) (l : list A) :
  (forall x, In x l -> f x = false) -> filter f l = [].
Proof.
  induction l as [|x l IH]; intro Hnone; [reflexivity|].
  cbn [filter]. rewrite (Hnone x (or_introl eq_refl)).
  apply IH. intros y Hy. apply Hnone. right. exact Hy.
Qed.

(** On sorted, distinct keys the total of a group over the keys met so
    far is its total over the dates up to the current one. *)
Lemma running_totals_sorted (m : key -> Q) (all : list key) :
  StronglySorted key_le all ->
  NoDup all ->
  forall ks pre,
    (pre ++ ks)%list = all ->
    Forall2 (fun k c =>
               (c == Qsum (map m (filter
                                    (fun j => String.eqb (fst j) (fst k)
                                              && (snd j <=? snd k)) all)))%Q)
      ks (running_totals m pre ks).
Proof.
  intros Hsorted Hnd.
  induction ks as [|k ks IH]; intros pre Hall; [constructor|].
  cbn [running_totals]. constructor;
    [|apply IH; rewrite <- app_assoc; exact Hall].
  subst all.
  match goal with
  | |- (Qsum (map _ ?a) == Qsum (map _ ?b))%Q =>
      assert (Hlist : b = a); [|rewrite Hlist; reflexivity]
  end.
  rewrite !filter_app. f_equal.
  - apply filter_ext_in. intros j Hj.
    apply eq_true_iff_eq. rewrite andb_true_iff, Z.leb_le.
    split; [intros [Eg _]; exact Eg | intro Eg; split; [exact Eg|]].
    apply String.eqb_eq in Eg.
    assert (Hle : key_le j k).
    { apply (sorted_app_le pre (k :: ks) Hsorted); [exact Hj|].
      left. reflexivity. }
    destruct j as [gj dj], k as [gk dk]. cbn [fst snd] in *. subst gj.
    now apply key_le_same_group in Hle.
  - cbn [filter]. rewrite !String.eqb_refl, Z.leb_refl. cbn [andb].
    f_equal. apply filter_none. intros j Hj.
    apply not_true_iff_false.
    rewrite andb_true_iff, String.eqb_eq, Z.leb_le. intros [Eg Hdate].
    assert (Hle : key_le k j).
    { apply (sorted_app_le (pre ++ [k]) ks).
      - rewrite <- app_assoc. exact Hsorted.
      - apply in_or_app. right. left. reflexivity.
      - exact Hj. }
    destruct j as [gj dj], k as [gk dk]. cbn [fst snd] in *. subst gj.
    apply key_le_same_group in Hle.
    assert (dj <> dk).
    { intros ->. apply NoDup_remove_2 in Hnd. apply Hnd, in_or_app.
      right. exact Hj. }
    lia.
Qed.

(** Summing a measure over the keys picked by [P] is summing it over the
    rows whose key [P] picks. *)
Lemma Qsum_by_keys_where (m : event -> Q) (P : key -> bool)
  (data : list event) :
  (Qsum (map (fun k => Qsum (map m (rows_of k data)))
          (filter P (group_keys data)))
   == Qsum (map m (filter (fun e => P (key_of e)) data)))%Q.
Proof.
  rewrite Qsum_by_keys by (apply NoDup_filter, group_keys_NoDup).
  rewrite (filter_ext_in _ (fun e => P (key_of e))); [reflexivity|].
  intros e He.
  destruct (P (key_of e)) eqn:Ep.
  - apply existsb_key, filter_In. split; [|exact Ep].
    apply group_keys_In. eauto.
  - destruct (existsb _ _) eqn:E; [|reflexivity].
    apply existsb_key, filter_In in E as [_ E]. congruence.
Qed.

Lemma str_column_map {A} (name : string) (b : A -> row) (f : A -> string)
  (xs : list A) :
  (forall x, get_str name (b x) = Some (f x)) ->
  str_column name (map b xs) = Some (map f xs).
Proof.
  intro Hget. induction xs as [|x xs IH]; [reflexivity|].
  cbn [map str_column]. now rewrite Hget, IH.
Qed.

Lemma set_column_Forall2 {A} (name : string) (b : A -> row)
  (R : A -> Q -> Prop) (xs : list A) (cs : list Q) :
  Forall2 R xs cs ->
  Forall2 (fun x r =>
             exists c, R x c /\ r = row_set name (CNum (Fin c)) (b x))
    xs (set_column name (map Fin cs) (map b xs)).
Proof.
  unfold set_column.
  induction 1 as [|x c xs cs Hxc _ IH]; cbn [map combine fst snd];
    constructor; [|exact IH].
  exists c. auto.
Qed.

Lemma Forall2_Qeq_trans {A} (T : A -> Q) (xs : list A) (cs rs : list Q) :
  Forall2 Qeq cs rs ->
  Forall2 (fun x r => (r == T x)%Q) xs rs ->
  Forall2 (fun x c => (c == T x)%Q) xs cs.
Proof.
  intro Hcs. revert xs.
  induction Hcs as [|c r cs rs Hcr _ IH]; intros xs Hxs;
    inversion Hxs; subst; constructor.
  - now rewrite Hcr.
  - now apply IH.
Qed.

Lemma Forall2_map_eq {A B C} (f : A -> C) (h : B -> C) (xs : list A)
  (ys : list B) :
  Forall2 (fun x y => h y = f x) xs ys -> map h ys = map f xs.
Proof. induction 1; cbn [map]; congruence. Qed.

(** X13. The cumulative-revenue cell on the KPI table of a non-empty Event
    table: the rows keep their order and keys, and the
    [cumulative_revenue] of the row of group [g] and date [d] is the
    revenue of all rows of the Event table of group [g] dated [d] or
    earlier. *)
Theorem cumulative_revenue_to_date (data : list event) :
  data <> [] ->
  exists kpi sorted,
    kpi_data data = Some kpi /\
    kpi_data_sorted kpi = Some sorted /\
    map row_key sorted = map row_key kpi /\
    Forall (fun r =>
              exists g d c,
                row_key r = Some (g, d) /\
                get_num "cumulative_revenue" r = Some (Fin c) /\
                (c == revenue_to_date data g d)%Q) sorted.
Proof.
  intro Hdata.
  set (ks := group_keys data).
  set (b := fun k => kpi_row_of k (rows_of k data)).
  destruct (group_cumsum_running (revenue_of data) ks [] [])
    as (cs & Hcs & Hrun).
  { intro g. exists 0%Q. split; reflexivity. }
  pose proof (running_totals_sorted (revenue_of data) ks
                (group_keys_sorted data) (group_keys_NoDup data) ks []
                eq_refl) as Hsorted.
  pose proof (Forall2_Qeq_trans _ ks cs _ Hrun Hsorted) as Hall.
  pose proof (set_column_Forall2 "cumulative_revenue" b _ ks cs Hall)
    as Hrows.
  exists (map b ks),
    (set_column "cumulative_revenue" (map Fin cs) (map b ks)).
  split; [apply kpi_data_by_keys, Hdata|].
  split.
  - unfold kpi_data_sorted. unfold b, ks. rewrite sort_values_by_keys.
    cbn [obind].
    rewrite (str_column_map "group"
               (fun k : key => kpi_row_of k (rows_of k data))
               (fun k : key => fst k) (group_keys data))
      by (intro; reflexivity).
    cbn [obind].
    rewrite (column_map "revenue"
               (fun k : key => kpi_row_of k (rows_of k data))
               (fun k : key => Fin (revenue_of data k)) (group_keys data))
      by (intro; reflexivity).
    cbn [obind]. fold ks. f_equal. f_equal. exact Hcs.
  - split.
    + rewrite map_map. apply Forall2_map_eq.
      eapply Forall2_impl; [|exact Hrows].
      intros [g d] r (c & _ & ->). reflexivity.
    + apply Forall_forall. intros r Hin.
      destruct (Forall2_In_r _ _ _ Hrows r Hin)
        as ([g d] & _ & c & Hc & ->).
      exists g, d, c.
      split; [reflexivity | split; [reflexivity|]].
      rewrite Hc. cbn [fst snd]. unfold revenue_of, revenue_to_date.
      apply (Qsum_by_keys_where revenue
               (fun j => String.eqb (fst j) g && (snd j <=? d)) data).
Qed.

Lemma cumulative_revenue_to_date_witness :
  exists kpi sorted,
    kpi_data [ Build_event 1003 1 "purchase" "treatment" 30;
               Build_event 1000 1 "purchase" "control" 50;
               Build_event 1001 0 "view" "treatment" 0;
               Build_event 1002 0 "purchase" "control" 7 ] = Some kpi /\
    kpi_data_sorted kpi = Some sorted /\
    map row_key sorted = map row_key kpi /\
    Forall (fun r =>
              exists g d c,
                row_key r = Some (g, d) /\
                get_num "cumulative_revenue" r = Some (Fin c) /\
                Qeq c (revenue_to_date
                         [ Build_event 1003 1 "purchase" "treatment" 30;
                           Build_event 1000 1 "purchase" "control" 50;
                           Build_event 1001 0 "view" "treatment" 0;
                           Build_event 1002 0 "purchase" "control" 7 ]
                         g d)) sorted.
Proof.
  apply (cumulative_revenue_to_date
           [ Build_event 1003 1 "purchase" "treatment" 30;
             Build_event 1000 1 "purchase" "control" 50;
             Build_event 1001 0 "view" "treatment" 0;
             Build_event 1002 0 "purchase" "control" 7 ]).
  discriminate.
Defined.

(** ** The daily-events table *)

Lemma insert_by_perm {A} (leb : A -> A -> bool) (x : A) (l : list A) :
  Permutation (insert_by leb x l) (x :: l).
Proof.
  induction l as [|y l IH]; [reflexivity|].
  cbn [insert_by]. destruct (leb x y); [reflexivity|].
  rewrite IH. apply perm_swap.
Qed.

Lemma sort_by_perm {A} (leb : A -> A -> bool) (l : list A) :
  Permutation (sort_by leb l) l.
Proof.
  induction l as [|x l IH]; [reflexivity|].
  cbn [sort_by fold_right]. rewrite insert_by_perm.
  constructor. exact IH.
Qed.

Section UniqueBy.

Context {A : Type} (eqb : A -> A -> bool).
Hypothesis eqb_eq : forall x y, eqb x y = true <-> x = y.

Lemma existsb_eqb (x : A) (l : list A) :
  existsb (eqb x) l = true <-> In x l.
Proof.
  rewrite existsb_exists. split.
  - intros (y & Hin & E). apply eqb_eq in E. now subst.
  - intro Hin. exists x. split; [exact Hin | now apply eqb_eq].
Qed.

Lemma unique_by_In (x : A) (l : list A) : In x (unique_by eqb l) <-> In x l.
Proof.
  induction l as [|y l IH]; [reflexivity|].
  cbn [unique_by]. destruct (existsb (eqb y) l) eqn:E.
  - rewrite IH. cbn. split; [auto|].
    intros [<-|Hin]; [apply existsb_eqb; exact E | exact Hin].
  - cbn. now rewrite IH.
Qed.

Lemma unique_by_NoDup (l : list A) : NoDup (unique_by eqb l).
Proof.
  induction l as [|x l IH]; [constructor|].
  cbn [unique_by]. destruct (existsb (eqb x) l) eqn:E; [exact IH|].
  constructor; [|exact IH].
  rewrite unique_by_In. intro Hin. apply existsb_eqb in Hin. congruence.
Qed.

End UniqueBy.

Section DailyEvents.

Context {G : Type} `{GeneratorLaws G}.

(** The rows of a pair of the loop, counted. *)
Lemma simulate_pair_rows (p : params) st data st' :
  simulate p st = Some (data, st') ->
  NoDup (groups p) ->
  forall d g,
    In (d, g) (loop_pairs p) ->
    events_low p <= Z.of_nat (length (rows_of (g, d) data)) < events_high p.
Proof.
  intros Hrun Hgroups d g Hin.
  apply simulate_inv in Hrun as (frames & -> & _ & Hframes).
  apply (rows_of_concat
           (fun _ rows =>
              events_low p <= Z.of_nat (length rows) < events_high p)
           (loop_pairs p) frames (loop_pairs_NoDup p Hgroups)) with (dg := (d, g));
    [|exact Hin].
  eapply Forall2_impl; [|exact Hframes].
  intros [d' g'] rows (s1 & s2 & Hday). cbn [fst snd] in *.
  apply simulate_day_rows in Hday as [Hlen Hrows].
  split; [|exact Hlen].
  eapply Forall_impl; [|exact Hrows].
  intros e (Hd & Hg & _). unfold key_of. now rewrite Hd, Hg.
Qed.

Lemma simulate_date_index (p : params) st data st' :
  simulate p st = Some (data, st') ->
  valid_params p = true ->
  0 < events_low p ->
  Permutation (date_index data) (dates p).
Proof.
  intros Hrun Hvalid Hlow. unfold date_index.
  rewrite sort_by_perm.
  apply NoDup_Permutation;
    [apply unique_by_NoDup, Z.eqb_eq | apply dates_NoDup|].
  intro d. rewrite (unique_by_In Z.eqb Z.eqb_eq), in_map_iff.
  apply valid_params_inv in Hvalid as (_ & Hg & _).
  split.
  - intros (e & <- & He).
    assert (Hpair : In (date e, group e) (loop_pairs p))
      by (apply (simulate_keys p st data st' Hrun Hlow (key_of e)); eauto).
    now apply loop_pairs_In in Hpair.
  - intro Hd. destruct (groups p) as [|g gs] eqn:Eg; [contradiction|].
    destruct (proj2 (simulate_keys p st data st' Hrun Hlow (g, d)))
      as (e & He & Ek).
    { cbn [fst snd]. apply loop_pairs_In. rewrite Eg.
      split; [exact Hd | left; reflexivity]. }
    exists e. unfold key_of in Ek. injection Ek as _ Ed. auto.
Qed.

Lemma simulate_group_columns (p : params) st data st' :
  simulate p st = Some (data, st') ->
  valid_params p = true ->
  0 < events_low p ->
  NoDup (groups p) ->
  Permutation (group_columns data) (groups p).
Proof.
  intros Hrun Hvalid Hlow Hnd. unfold group_columns.
  rewrite sort_by_perm.
  apply NoDup_Permutation;
    [apply unique_by_NoDup, String.eqb_eq | exact Hnd|].
  intro g. rewrite (unique_by_In String.eqb String.eqb_eq), in_map_iff.
  apply valid_params_inv in Hvalid as (Hdays & _).
  split.
  - intros (e & <- & He).
    assert (Hpair : In (date e, group e) (loop_pairs p))
      by (apply (simulate_keys p st data st' Hrun Hlow (key_of e)); eauto).
    now apply loop_pairs_In in Hpair.
  - intro Hg.
    destruct (proj2 (simulate_keys p st data st' Hrun Hlow (g, 0)))
      as (e & He & Ek).
    { cbn [fst snd]. apply loop_pairs_In.
      split; [apply dates_range; lia | exact Hg]. }
    exists e. unfold key_of in Ek. injection Ek as Eg _. auto.
Qed.

End DailyEvents.

(** X14. The daily-events table of the exploratory cell has no gaps: on a
    valid configuration with distinct groups that draws at least one
    event per day, it has one line per simulated day and one cell per
    group, and every cell is a count between [events_low] and
    [events_high - 1], never [nan]. *)
Theorem daily_events_has_no_gaps {G} `{GeneratorLaws G} (p : params)
  (st : G) :
  valid_params p = true ->
  0 < events_low p ->
  NoDup (groups p) ->
  exists data st',
    simulate p st = Some (data, st') /\
    length (daily_events data) = num_days p /\
    Forall (fun line =>
              In (fst line) (dates p) /\
              length (snd line) = length (groups p) /\
              Forall (fun cell =>
                        In (fst cell) (groups p) /\
                        exists n,
                          snd cell = of_count n /\
                          events_low p <= Z.of_nat n < events_high p)
                (snd line))
      (daily_events data).
Proof.
  intros Hvalid Hlow Hnd.
  destruct (simulate_total p st Hvalid) as (data & st' & Hrun).
  pose proof (simulate_date_index p st data st' Hrun Hvalid Hlow) as Hdates.
  pose proof (simulate_group_columns p st data st' Hrun Hvalid Hlow Hnd)
    as Hcols.
  exists data, st'. split; [exact Hrun|].
  unfold daily_events. split.
  - rewrite length_map, (Permutation_length Hdates).
    unfold dates. now rewrite length_map, length_seq.
  - apply Forall_forall. intros line Hin.
    apply in_map_iff in Hin as (d & <- & Hd). cbn [fst snd].
    apply (Permutation_in _ Hdates) in Hd.
    split; [exact Hd|].
    split; [rewrite length_map; apply (Permutation_length Hcols)|].
    apply Forall_forall. intros cell Hcell.
    apply in_map_iff in Hcell as (g & <- & Hg). cbn [fst snd].
    apply (Permutation_in _ Hcols) in Hg.
    split; [exact Hg|].
    pose proof (simulate_pair_rows p st data st' Hrun Hnd d g
                  ltac:(apply loop_pairs_In; auto)) as Hlen.
    exists (length (rows_of (g, d) data)).
    split; [|exact Hlen].
    destruct (rows_of (g, d) data); [cbn in Hlen; lia | reflexivity].
Qed.

Lemma daily_events_has_no_gaps_witness :
  exists data st',
    simulate reference (play []) = Some (data, st') /\
    length (daily_events data) = 30%nat /\
    Forall (fun line =>
              In (fst line) (dates reference) /\
              length (snd line) = 2%nat /\
              Forall (fun cell =>
                        In (fst cell) (groups reference) /\
                        exists n,
                          snd cell = of_count n /\
                          150 <= Z.of_nat n < 200)
                (snd line))
      (daily_events data).
Proof.
  apply (daily_events_has_no_gaps reference (play [])).
  - reflexivity.
  - reflexivity.
  - cbn [reference groups]. repeat constructor; cbn; intuition discriminate.
Defined.

(** ** Revenue by group *)

(** X15. With [revenue_global] switched off, on a valid configuration
    whose two per-group ranges are not empty, every purchase of the group
    [control] has its revenue in [r_revenue_control] and every purchase of
    any other group has its revenue in [r_revenue_treatment]: at least the
    lower bound and at most the largest value [np.random.uniform] returns
    for the range, which is at most the upper bound.  With the ranges of
    the notebook a control purchase is in [200, 300], 300 included, and a
    treatment purchase in [20, 100), 100 excluded. *)
Theorem per_group_revenue_ranges {G} `{GeneratorLaws G} (p : params)
  (st : G) :
  valid_params p = true ->
  revenue_global p = false ->
  (fst (r_revenue_control p) < snd (r_revenue_control p))%Q ->
  (fst (r_revenue_treatment p) < snd (r_revenue_treatment p))%Q ->
  exists data st',
    simulate p st = Some (data, st') /\
    Forall (fun e =>
              event_type e = "purchase" ->
              (group e = "control" ->
               (fst (r_revenue_control p) <= revenue e
                /\ revenue e <= uniform_max (fst (r_revenue_control p))
                                            (snd (r_revenue_control p))
                /\ revenue e <= snd (r_revenue_control p))%Q) /\
              (group e <> "control" ->
               (fst (r_revenue_treatment p) <= revenue e
                /\ revenue e <= uniform_max (fst (r_revenue_treatment p))
                                            (snd (r_revenue_treatment p))
                /\ revenue e <= snd (r_revenue_treatment p))%Q)) data.
Proof.
  intros Hvalid Hglobal Hc Ht.
  destruct (simulate_total p st Hvalid) as (data & st' & Hrun).
  exists data, st'. split; [exact Hrun|].
  eapply Forall_impl; [|exact (simulate_rows p st data st' Hrun)].
  intros e (_ & _ & Hpur & _) E. specialize (Hpur E).
  unfold r_revenue in Hpur. rewrite Hglobal in Hpur.
  split; intro Hg.
  - rewrite Hg in Hpur. cbn [String.eqb Ascii.eqb Bool.eqb] in Hpur.
    destruct (Hpur Hc) as [Hlow Hmax].
    split; [exact Hlow | split; [exact Hmax|]].
    eapply Qle_trans; [exact Hmax|].
    apply uniform_max_le, Qlt_le_weak, Hc.
  - apply String.eqb_neq in Hg. rewrite Hg in Hpur.
    destruct (Hpur Ht) as [Hlow Hmax].
    split; [exact Hlow | split; [exact Hmax|]].
    eapply Qle_trans; [exact Hmax|].
    apply uniform_max_le, Qlt_le_weak, Ht.
Qed.

Lemma per_group_revenue_ranges_witness :
  exists data st',
    simulate (per_group_revenue reference) (play []) = Some (data, st') /\
    Forall (fun e =>
              event_type e = "purchase" ->
              (group e = "control" ->
               (200 <= revenue e /\ revenue e <= 300)%Q) /\
              (group e <> "control" ->
               (20 <= revenue e /\ revenue e < 100)%Q)) data.
Proof.
  destruct (per_group_revenue_ranges (per_group_revenue reference) (play [])
              eq_refl eq_refl eq_refl eq_refl)
    as (data & st' & Hrun & Hrows).
  exists data, st'. split; [exact Hrun|].
  eapply Forall_impl; [|exact Hrows].
  intros e Hpur E. destruct (Hpur E) as [Hcontrol Htreatment].
  split; intro Hg.
  - destruct (Hcontrol Hg) as (Hlow & _ & Hhigh). split; assumption.
  - destruct (Htreatment Hg) as (Hlow & Hmax & _).
    split; [exact Hlow|].
    eapply Qle_lt_trans; [exact Hmax | apply uniform_max_treatment].
Defined.

(** ** What the KPIs do not look at *)

Lemma rows_of_with_user_ids (f : event -> Z) (k : key) (data : list event) :
  rows_of k (map (fun e => with_user_id (f e) e) data)
  = map (fun e => with_user_id (f e) e) (rows_of k data).
Proof.
  unfold rows_of. induction data as [|e data IH]; [reflexivity|].
  cbn [map filter].
  change (key_of (with_user_id (f e) e)) with (key_of e).
  destruct (key_eqb (key_of e) k); cbn [map]; now rewrite IH.
Qed.

Lemma count_type_with_user_ids (f : event -> Z) (label : string)
  (x : list event) :
  count_type label (map (fun e => with_user_id (f e) e) x)
  = count_type label x.
Proof.
  unfold count_type. induction x as [|e x IH]; [reflexivity|].
  cbn [map filter].
  change (event_type (with_user_id (f e) e)) with (event_type e).
  destruct (String.eqb (event_type e) label); cbn [length]; now rewrite IH.
Qed.

(** X16. The KPI table does not depend on the user ids: replacing the
    user id of every row of an Event table by any other leaves [kpi_data]
    as it is (the KPIs count events, not users). *)
Theorem kpis_ignore_user_ids (f : event -> Z) (data : list event) :
  kpi_data (map (fun e => with_user_id (f e) e) data) = kpi_data data.
Proof.
  destruct data as [|e0 data0] eqn:Edata; [reflexivity|].
  rewrite <- Edata.
  assert (Hne : data <> []) by (rewrite Edata; discriminate).
  assert (Hne' : map (fun e => with_user_id (f e) e) data <> [])
    by (rewrite Edata; discriminate).
  rewrite (kpi_data_by_keys _ Hne), (kpi_data_by_keys _ Hne').
  assert (Hkeys : group_keys (map (fun e => with_user_id (f e) e) data)
                  = group_keys data).
  { unfold group_keys. rewrite map_map. reflexivity. }
  rewrite Hkeys. f_equal. apply map_ext. intro k.
  rewrite rows_of_with_user_ids. unfold kpi_row_of.
  rewrite !count_type_with_user_ids, map_map. reflexivity.
Qed.
